(** * Tapkee: the shared definitions header [tapkee_defines.hpp]

    A shallow embedding of the header that every part of the tapkee
    dimension-reduction library includes: the parameter keys and the
    parameters map, the three selection enumerations, the cover-tree base
    macro, the projecting function together with its polymorphic
    implementation, and the header's preprocessing directives.  The
    eigenproblem solver and the cover tree are not part
    of the header; where a statement is about them they are modelled from the
    specification and marked as such. *)

From Stdlib Require Import ZArith QArith Qpower List Lia PrimFloat SpecFloat
  FloatAxioms Sorted Permutation.
From stdpp Require Import base decidable countable strings gmap fin_maps.

Set Default Proof Using "Type".

(* ===================================================================== *)
(** ** Enumerations *)
(* ===================================================================== *)

(** [enum TAPKEE_PARAMETERS], in declaration order. *)
Inductive TAPKEE_PARAMETERS : Set :=
  | REDUCTION_METHOD
  | NUMBER_OF_NEIGHBORS
  | TARGET_DIMENSION
  | CURRENT_DIMENSION
  | EIGEN_EMBEDDING_METHOD
  | NEIGHBORS_METHOD
  | DIFFUSION_MAP_TIMESTEPS
  | GAUSSIAN_KERNEL_WIDTH
  | MAX_ITERATION
  | SPE_GLOBAL_STRATEGY
  | SPE_TOLERANCE
  | SPE_NUM_UPDATES
  | LANDMARK_RATIO
  | EIGENSHIFT.

(** [enum TAPKEE_METHOD], in declaration order. *)
Inductive TAPKEE_METHOD : Set :=
  | KERNEL_LOCALLY_LINEAR_EMBEDDING
  | NEIGHBORHOOD_PRESERVING_EMBEDDING
  | KERNEL_LOCAL_TANGENT_SPACE_ALIGNMENT
  | LINEAR_LOCAL_TANGENT_SPACE_ALIGNMENT
  | HESSIAN_LOCALLY_LINEAR_EMBEDDING
  | LAPLACIAN_EIGENMAPS
  | LOCALITY_PRESERVING_PROJECTIONS
  | DIFFUSION_MAP
  | ISOMAP
  | LANDMARK_ISOMAP
  | MULTIDIMENSIONAL_SCALING
  | LANDMARK_MULTIDIMENSIONAL_SCALING
  | STOCHASTIC_PROXIMITY_EMBEDDING
  | KERNEL_PCA
  | PCA
  | UNKNOWN_METHOD.

(** [enum TAPKEE_NEIGHBORS_METHOD]. *)
Inductive TAPKEE_NEIGHBORS_METHOD : Set :=
  | BRUTE_FORCE
  | COVER_TREE
  | UNKNOWN_NEIGHBORS_METHOD.

(** [enum TAPKEE_EIGEN_EMBEDDING_METHOD]. *)
Inductive TAPKEE_EIGEN_EMBEDDING_METHOD : Set :=
  | ARPACK
  | RANDOMIZED
  | EIGEN_DENSE_SELFADJOINT_SOLVER
  | UNKNOWN_EIGEN_METHOD.

(** An unscoped C++ enumeration without initialisers numbers its enumerators
    from zero in declaration order.  A type with such a numbering is an
    instance of [CEnum]. *)
Class CEnum (E : Type) := {
  enumerators : list E;
  enum_value : E -> Z
}.

Module Parameters.

Definition all : list TAPKEE_PARAMETERS :=
  [ REDUCTION_METHOD; NUMBER_OF_NEIGHBORS; TARGET_DIMENSION;
    CURRENT_DIMENSION; EIGEN_EMBEDDING_METHOD; NEIGHBORS_METHOD;
    DIFFUSION_MAP_TIMESTEPS; GAUSSIAN_KERNEL_WIDTH; MAX_ITERATION;
    SPE_GLOBAL_STRATEGY; SPE_TOLERANCE; SPE_NUM_UPDATES;
    LANDMARK_RATIO; EIGENSHIFT ].

Definition value (k : TAPKEE_PARAMETERS) : Z :=
  match k with
  | REDUCTION_METHOD => 0
  | NUMBER_OF_NEIGHBORS => 1
  | TARGET_DIMENSION => 2
  | CURRENT_DIMENSION => 3
  | EIGEN_EMBEDDING_METHOD => 4
  | NEIGHBORS_METHOD => 5
  | DIFFUSION_MAP_TIMESTEPS => 6
  | GAUSSIAN_KERNEL_WIDTH => 7
  | MAX_ITERATION => 8
  | SPE_GLOBAL_STRATEGY => 9
  | SPE_TOLERANCE => 10
  | SPE_NUM_UPDATES => 11
  | LANDMARK_RATIO => 12
  | EIGENSHIFT => 13
  end%Z.

(** The enumerator an integer converts to,
    [static_cast<TAPKEE_PARAMETERS>(z)], where it converts to one.  The
    conversion goes through the underlying type of the enumeration, which
    the compilers take 32 bits wide: it keeps the low 32 bits of [z]. *)
Definition of_value (z : Z) : option TAPKEE_PARAMETERS :=
  nth_error all (Z.to_nat (z mod 2 ^ 32)%Z).

End Parameters.

Module Method.

Definition all : list TAPKEE_METHOD :=
  [ KERNEL_LOCALLY_LINEAR_EMBEDDING; NEIGHBORHOOD_PRESERVING_EMBEDDING;
    KERNEL_LOCAL_TANGENT_SPACE_ALIGNMENT;
    LINEAR_LOCAL_TANGENT_SPACE_ALIGNMENT;
    HESSIAN_LOCALLY_LINEAR_EMBEDDING; LAPLACIAN_EIGENMAPS;
    LOCALITY_PRESERVING_PROJECTIONS; DIFFUSION_MAP; ISOMAP;
    LANDMARK_ISOMAP; MULTIDIMENSIONAL_SCALING;
    LANDMARK_MULTIDIMENSIONAL_SCALING; STOCHASTIC_PROXIMITY_EMBEDDING;
    KERNEL_PCA; PCA; UNKNOWN_METHOD ].

Definition value (m : TAPKEE_METHOD) : Z :=
  match m with
  | KERNEL_LOCALLY_LINEAR_EMBEDDING => 0
  | NEIGHBORHOOD_PRESERVING_EMBEDDING => 1
  | KERNEL_LOCAL_TANGENT_SPACE_ALIGNMENT => 2
  | LINEAR_LOCAL_TANGENT_SPACE_ALIGNMENT => 3
  | HESSIAN_LOCALLY_LINEAR_EMBEDDING => 4
  | LAPLACIAN_EIGENMAPS => 5
  | LOCALITY_PRESERVING_PROJECTIONS => 6
  | DIFFUSION_MAP => 7
  | ISOMAP => 8
  | LANDMARK_ISOMAP => 9
  | MULTIDIMENSIONAL_SCALING => 10
  | LANDMARK_MULTIDIMENSIONAL_SCALING => 11
  | STOCHASTIC_PROXIMITY_EMBEDDING => 12
  | KERNEL_PCA => 13
  | PCA => 14
  | UNKNOWN_METHOD => 15
  end%Z.

Definition of_value (z : Z) : option TAPKEE_METHOD :=
  nth_error all (Z.to_nat (z mod 2 ^ 32)%Z).

End Method.

Module NeighborsMethod.

Definition all : list TAPKEE_NEIGHBORS_METHOD :=
  [ BRUTE_FORCE; COVER_TREE; UNKNOWN_NEIGHBORS_METHOD ].

Definition value (m : TAPKEE_NEIGHBORS_METHOD) : Z :=
  match m with
  | BRUTE_FORCE => 0
  | COVER_TREE => 1
  | UNKNOWN_NEIGHBORS_METHOD => 2
  end%Z.

Definition of_value (z : Z) : option TAPKEE_NEIGHBORS_METHOD :=
  nth_error all (Z.to_nat (z mod 2 ^ 32)%Z).

End NeighborsMethod.

Module EigenMethod.

Definition all : list TAPKEE_EIGEN_EMBEDDING_METHOD :=
  [ ARPACK; RANDOMIZED; EIGEN_DENSE_SELFADJOINT_SOLVER;
    UNKNOWN_EIGEN_METHOD ].

Definition value (m : TAPKEE_EIGEN_EMBEDDING_METHOD) : Z :=
  match m with
  | ARPACK => 0
  | RANDOMIZED => 1
  | EIGEN_DENSE_SELFADJOINT_SOLVER => 2
  | UNKNOWN_EIGEN_METHOD => 3
  end%Z.

Definition of_value (z : Z) : option TAPKEE_EIGEN_EMBEDDING_METHOD :=
  nth_error all (Z.to_nat (z mod 2 ^ 32)%Z).

End EigenMethod.

#[export] Instance TAPKEE_PARAMETERS_enum : CEnum TAPKEE_PARAMETERS :=
  {| enumerators := Parameters.all; enum_value := Parameters.value |}.
#[export] Instance TAPKEE_METHOD_enum : CEnum TAPKEE_METHOD :=
  {| enumerators := Method.all; enum_value := Method.value |}.
#[export] Instance TAPKEE_NEIGHBORS_METHOD_enum :
  CEnum TAPKEE_NEIGHBORS_METHOD :=
  {| enumerators := NeighborsMethod.all;
     enum_value := NeighborsMethod.value |}.
#[export] Instance TAPKEE_EIGEN_EMBEDDING_METHOD_enum :
  CEnum TAPKEE_EIGEN_EMBEDDING_METHOD :=
  {| enumerators := EigenMethod.all; enum_value := EigenMethod.value |}.

(** The last enumerator of an enumeration, where there is one. *)
Definition last_enumerator {E} `{CEnum E} : option E :=
  List.last (List.map Some enumerators) None.

#[export] Instance TAPKEE_PARAMETERS_eq_dec : EqDecision TAPKEE_PARAMETERS.
Proof. solve_decision. Defined.
#[export] Instance TAPKEE_METHOD_eq_dec : EqDecision TAPKEE_METHOD.
Proof. solve_decision. Defined.
#[export] Instance TAPKEE_NEIGHBORS_METHOD_eq_dec :
  EqDecision TAPKEE_NEIGHBORS_METHOD.
Proof. solve_decision. Defined.
#[export] Instance TAPKEE_EIGEN_EMBEDDING_METHOD_eq_dec :
  EqDecision TAPKEE_EIGEN_EMBEDDING_METHOD.
Proof. solve_decision. Defined.

(** [std::map] orders its keys by [operator<], which on an enumeration
    compares the enumerator values; the values also make the keys countable,
    which is what [gmap] asks of a key type. *)
#[export] Instance TAPKEE_PARAMETERS_countable : Countable TAPKEE_PARAMETERS.
Proof.
  apply (inj_countable Parameters.value Parameters.of_value).
  intros k; destruct k; reflexivity.
Defined.

(* ===================================================================== *)
(** ** Customizable types and properties *)
(* ===================================================================== *)

(** The header takes its numeric types from the file named by
    [TAPKEE_CUSTOM_TYPES] when that macro is defined, and declares its own
    otherwise.  Nothing in the header looks inside a scalar, a vector or a
    matrix, so the types are the fields of a class and the header's own
    typedefs are one instance of it. *)
Class TapkeeTypes : Type := {
  DefaultScalarType : Type;
  DenseVector : Type;
  DenseMatrix : Type;
  SparseWeightMatrix : Type
}.

(** A C++ [double]: an IEEE 754 binary64 number.  Equality of two values is
    equality of their bits, except that all NaNs are one value here. *)
Definition double : Type := float.

(** [Eigen::Triplet<DefaultScalarType>]: row, column, value. *)
Definition SparseTriplet (scalar : Type) : Type := (nat * nat * scalar)%type.

(** The typedefs of the [#else] branch. [Eigen::Matrix<double,Dynamic,1>] is
    the sequence of its coefficients, a dense matrix the sequence of its rows,
    a sparse matrix its stored entries. *)
Definition default_types : TapkeeTypes :=
  {| DefaultScalarType := double;
     DenseVector := list double;
     DenseMatrix := list (list double);
     SparseWeightMatrix := list (SparseTriplet double) |}.

(** What a file named by [TAPKEE_CUSTOM_PROPERTIES] may define.  The header
    reads one macro from it. *)
Record CustomProperties : Set := {
  custom_COVERTREE_BASE : option Q
}.

(** The macro [COVERTREE_BASE] after preprocessing, given whether
    [TAPKEE_CUSTOM_PROPERTIES] is defined and what the file it names
    contains.  The replacement text of the header's own definition is the
    decimal literal [1.3]; a macro stands for the number its literal denotes.
    [None]: the macro is not defined. *)
Definition COVERTREE_BASE
    (TAPKEE_CUSTOM_PROPERTIES : option CustomProperties) : option Q :=
  match TAPKEE_CUSTOM_PROPERTIES with
  | Some custom => custom_COVERTREE_BASE custom
  | None => Some 1.3%Q
  end.

(** Modelled from the spec: the cover tree is not part of the header.  Its
    nodes at each level are covered by balls whose radius shrinks by the base
    factor relative to the level above; [top] is the radius at the root and
    [depth] counts the levels below it. *)
Definition covering_radius (base top : Q) (depth : nat) : Q :=
  (top / base ^ Z.of_nat depth)%Q.

(* ===================================================================== *)
(** ** The parameters map *)
(* ===================================================================== *)

(** Modelled from the spec: [utils/any.hpp] is not part of the header.  A
    dynamically-typed value is empty or holds a value together with its
    type. *)
Inductive any : Type :=
  | any_empty
  | any_of (T : Type) (v : T).

(** [typedef std::map<TAPKEE_PARAMETERS, any> ParametersMap]. *)
Abbreviation ParametersMap := (gmap TAPKEE_PARAMETERS any).

(** The option keys as the specification lists them, in its words and
    order. *)
Inductive ListedOption : Set :=
  | opt_method
  | opt_neighbor_count
  | opt_target_dimension
  | opt_eigen_embedding_backend
  | opt_neighbor_search_backend
  | opt_diffusion_time_steps
  | opt_kernel_width
  | opt_max_iterations
  | opt_landmark_ratio
  | opt_eigenvalue_shift
  | opt_proximity_embedding_tolerance
  | opt_proximity_embedding_update_count
  | opt_proximity_embedding_global_strategy.

(** The enumerator each listed option names. *)
Definition listed_key (o : ListedOption) : TAPKEE_PARAMETERS :=
  match o with
  | opt_method => REDUCTION_METHOD
  | opt_neighbor_count => NUMBER_OF_NEIGHBORS
  | opt_target_dimension => TARGET_DIMENSION
  | opt_eigen_embedding_backend => EIGEN_EMBEDDING_METHOD
  | opt_neighbor_search_backend => NEIGHBORS_METHOD
  | opt_diffusion_time_steps => DIFFUSION_MAP_TIMESTEPS
  | opt_kernel_width => GAUSSIAN_KERNEL_WIDTH
  | opt_max_iterations => MAX_ITERATION
  | opt_landmark_ratio => LANDMARK_RATIO
  | opt_eigenvalue_shift => EIGENSHIFT
  | opt_proximity_embedding_tolerance => SPE_TOLERANCE
  | opt_proximity_embedding_update_count => SPE_NUM_UPDATES
  | opt_proximity_embedding_global_strategy => SPE_GLOBAL_STRATEGY
  end.

(** The reduction algorithms as the specification lists them. *)
Inductive ListedAlgorithm : Set :=
  | alg_LLE
  | alg_LTSA
  | alg_Hessian_LLE
  | alg_Laplacian_Eigenmaps
  | alg_Locality_Preserving_Projections
  | alg_Diffusion_Maps
  | alg_Isomap
  | alg_Landmark_Isomap
  | alg_MDS
  | alg_Landmark_MDS
  | alg_Stochastic_Proximity_Embedding
  | alg_PCA
  | alg_Kernel_PCA.

(** The enumerator each listed algorithm names.  The header documents
    [KERNEL_LOCALLY_LINEAR_EMBEDDING] as "Locally Linear Embedding / Kernel
    Locally Linear Embedding" and [KERNEL_LOCAL_TANGENT_SPACE_ALIGNMENT] as
    "Local Tangent Space Alignment / Kernel Local Tangent Space Alignment". *)
Definition listed_method (a : ListedAlgorithm) : TAPKEE_METHOD :=
  match a with
  | alg_LLE => KERNEL_LOCALLY_LINEAR_EMBEDDING
  | alg_LTSA => KERNEL_LOCAL_TANGENT_SPACE_ALIGNMENT
  | alg_Hessian_LLE => HESSIAN_LOCALLY_LINEAR_EMBEDDING
  | alg_Laplacian_Eigenmaps => LAPLACIAN_EIGENMAPS
  | alg_Locality_Preserving_Projections => LOCALITY_PRESERVING_PROJECTIONS
  | alg_Diffusion_Maps => DIFFUSION_MAP
  | alg_Isomap => ISOMAP
  | alg_Landmark_Isomap => LANDMARK_ISOMAP
  | alg_MDS => MULTIDIMENSIONAL_SCALING
  | alg_Landmark_MDS => LANDMARK_MULTIDIMENSIONAL_SCALING
  | alg_Stochastic_Proximity_Embedding => STOCHASTIC_PROXIMITY_EMBEDDING
  | alg_PCA => PCA
  | alg_Kernel_PCA => KERNEL_PCA
  end.

(* ===================================================================== *)
(** ** The projecting function *)
(* ===================================================================== *)

(** What a program adds to the header, which declares [project] pure
    virtual and defines no class with an override: the classes the program
    derives from [struct ProjectingImplementation], and the values that the
    data members of one object, or the static storage of the program, can
    hold. *)
Class Derivation : Type := {
  derived_class : Type;
  storage : Type
}.

(** An object of a class derived from [struct ProjectingImplementation], as
    it lies in memory: the class it was created with, which decides the
    override a virtual call runs, and its data members. *)
Record ProjectingImplementation `{Derivation} : Type := {
  dynamic_class : derived_class;
  members : storage
}.

(** A [ProjectingImplementation*]: null, or an address. *)
Inductive pointer : Set :=
  | nullptr
  | address (a : positive).

#[export] Instance pointer_eq_dec : EqDecision pointer.
Proof. solve_decision. Defined.

(** [struct ProjectingFunction]: its one data member, which is public and
    not [const]. *)
Record ProjectingFunction : Set := {
  implementation : pointer
}.

(** The state of a program at some point of a run: the projecting functions
    and the implementation objects alive, each by address, and the static
    storage.  A pointer whose address holds no implementation object is
    dangling. *)
Record Memory `{Derivation} : Type := {
  functions : gmap positive ProjectingFunction;
  implementations : gmap positive ProjectingImplementation;
  statics : storage
}.

(** How a call ends: it returns a value and leaves a memory, it throws and
    leaves a memory, it does not end, or its behaviour is undefined. *)
Inductive outcome `{Derivation} (A : Type) : Type :=
  | Returns (a : A) (m : Memory)
  | Throws (m : Memory)
  | Diverges
  | UndefinedBehaviour.

Arguments Returns {_ _} a m.
Arguments Throws {_ _} m.
Arguments Diverges {_ _}.
Arguments UndefinedBehaviour {_ _}.

(** [virtual DenseVector project(const DenseVector& vec) = 0] as the
    program overrides it, class by class.  The member function is neither
    [const] nor restricted in any other way: run for the object at address
    [this] it may read and write the whole memory, the projecting functions
    and the static storage included, and it may end in any of the ways a
    call ends. *)
Class Overrides `{TapkeeTypes} `{Derivation} : Type := {
  project :
    derived_class -> positive -> DenseVector -> Memory -> outcome DenseVector
}.

(** [ProjectingFunction(ProjectingImplementation* impl) :
    implementation(impl) {}], run for the object at [self]. *)
Definition ProjectingFunction_ctor `{Derivation} (self : positive)
    (impl : pointer) (m : Memory) : Memory :=
  {| functions := <[self := {| implementation := impl |}]> (functions m);
     implementations := implementations m;
     statics := statics m |}.

(** The struct declares no destructor, so the language supplies one that
    runs no statement: the object at [self] ends, and nothing else does. *)
Definition ProjectingFunction_dtor `{Derivation} (self : positive)
    (m : Memory) : Memory :=
  {| functions := delete self (functions m);
     implementations := implementations m;
     statics := statics m |}.

(** [DenseVector operator()(const DenseVector& vec)
       { return implementation->project(vec); }]
    called on the object at [self].  Going through a pointer that is null
    or dangling is undefined behaviour; otherwise the virtual call runs the
    override of the class of the object pointed to, and the call ends as
    that override ends. *)
Definition ProjectingFunction_call `{Overrides} (self : positive)
    (vec : DenseVector) (m : Memory) : outcome DenseVector :=
  match functions m !! self with
  | None => UndefinedBehaviour
  | Some f =>
      match implementation f with
      | nullptr => UndefinedBehaviour
      | address a =>
          match implementations m !! a with
          | None => UndefinedBehaviour
          | Some obj => project (dynamic_class obj) a vec m
          end
      end
  end.

(** No implementation object is pointed to by two projecting functions. *)
Definition exclusively_owned `{Derivation} (m : Memory) : Prop :=
  forall l1 l2 f1 f2 a,
    functions m !! l1 = Some f1 ->
    functions m !! l2 = Some f2 ->
    implementation f1 = address a ->
    implementation f2 = address a ->
    l1 = l2.

(** Two projecting functions at different addresses point to one
    implementation object. *)
Definition shares_implementation `{Derivation} (m : Memory) : Prop :=
  exists (l1 l2 a : positive) (f1 f2 : ProjectingFunction),
    l1 <> l2
    /\ functions m !! l1 = Some f1
    /\ functions m !! l2 = Some f2
    /\ implementation f1 = address a
    /\ implementation f2 = address a.

(** *** A program with two derived classes *)

(** The one class answers with its input on every other call and with the
    empty vector in between: its one member records which kind of call
    comes next.  The other class has no state and reverses its input. *)
Inductive example_class : Set :=
  | alternating_class
  | reversing_class.

Definition example_derivation : Derivation :=
  {| derived_class := example_class; storage := bool |}.


Definition reversing_implementation :
    @ProjectingImplementation example_derivation :=
  @Build_ProjectingImplementation example_derivation reversing_class false.

Definition example_overrides : @Overrides default_types example_derivation :=
  @Build_Overrides default_types example_derivation
    (fun (class : example_class) (this : positive) (vec : list double)
         (m : @Memory example_derivation) =>
       match class with
       | reversing_class => Returns (rev vec) m
       | alternating_class =>
           match implementations m !! this with
           | None => UndefinedBehaviour
           | Some obj =>
               let next : bool := @members example_derivation obj in
               Returns (if next then vec else [])
                 (@Build_Memory example_derivation (functions m)
                    (<[this :=
                         @Build_ProjectingImplementation example_derivation
                           alternating_class (negb next)]>
                       (implementations m))
                    (statics m))
           end
       end).

(** The memory in which the projecting function at address 1 points to the
    implementation object at address 1. *)
Definition one_function (obj : @ProjectingImplementation example_derivation)
    : @Memory example_derivation :=
  @ProjectingFunction_ctor example_derivation 1%positive
    (address 1%positive)
    (@Build_Memory example_derivation ∅ {[ 1%positive := obj ]} false).

(* ===================================================================== *)
(** ** The eigenproblem solver backends *)
(* ===================================================================== *)

(** Modelled from the spec: the header names the failures nowhere; this is
    the taxonomy of the specification's error handling design. *)
Inductive Error : Set :=
  | MissingParameterError
  | TypeMismatchError
  | InsufficientDataError
  | UnsupportedProblemError
  | ConvergenceError
  | DegenerateSpectrumError.

(** Modelled from the spec: the order a method states for its eigenpairs. *)
Inductive EigenOrder : Set :=
  | Ascending
  | Descending.

(** An eigenvalue with its eigenvector. *)
Definition Eigenpair `{TapkeeTypes} : Type :=
  (DefaultScalarType * DenseVector)%type.

(** Modelled from the spec: the third-party numeric kernels behind the three
    backends, which the specification treats as pluggable and does not
    describe further.  [full_spectrum] is the dense self-adjoint
    decomposition ([DefaultDenseSelfAdjointEigenSolver]) of an operator and,
    for a generalized problem, of the second operator with it; the Krylov
    fields are one start, one restart, the convergence test and the
    extraction of the converged pairs of an iterative method;
    [range_finder] is the randomized approximation. *)
Class EigenBackends `{TapkeeTypes} : Type := {
  Operator : Type;
  scalar_leb : DefaultScalarType -> DefaultScalarType -> bool;
  to_dense : Operator -> DenseMatrix;
  full_spectrum : DenseMatrix -> option DenseMatrix -> list Eigenpair;
  KrylovState : Type;
  krylov_start :
    Operator -> option Operator -> nat -> EigenOrder -> KrylovState;
  krylov_restart : KrylovState -> KrylovState;
  krylov_converged : KrylovState -> bool;
  ritz_pairs : KrylovState -> list Eigenpair;
  range_finder : Operator -> nat -> EigenOrder -> list Eigenpair
}.

(** Whether [p] may stand before [q] in the given order. *)
Definition pair_leb `{EigenBackends} (order : EigenOrder)
    (p q : Eigenpair) : bool :=
  match order with
  | Ascending => scalar_leb (fst p) (fst q)
  | Descending => scalar_leb (fst q) (fst p)
  end.

Fixpoint insert_pair `{EigenBackends} (order : EigenOrder) (p : Eigenpair)
    (l : list Eigenpair) : list Eigenpair :=
  match l with
  | [] => [p]
  | q :: l' =>
      if pair_leb order p q then p :: l else q :: insert_pair order p l'
  end.

Fixpoint sort_pairs `{EigenBackends} (order : EigenOrder)
    (l : list Eigenpair) : list Eigenpair :=
  match l with
  | [] => []
  | p :: l' => insert_pair order p (sort_pairs order l')
  end.

(** Modelled from the spec: "selects the targetDimension eigenpairs per the
    method's stated order". *)
Definition select_eigenpairs `{EigenBackends} (order : EigenOrder)
    (targetDimension : nat) (spectrum : list Eigenpair) : list Eigenpair :=
  firstn targetDimension (sort_pairs order spectrum).

(** Modelled from the spec: an iterative method with a bounded iteration
    count.  It stops at the first converged state; [budget] is the number of
    restarts it may still spend, and [None] says that the budget ran out. *)
Fixpoint krylov_iterate `{EigenBackends} (budget : nat) (s : KrylovState)
    : option KrylovState :=
  if krylov_converged s then Some s
  else match budget with
       | O => None
       | S budget' => krylov_iterate budget' (krylov_restart s)
       end.

(** Modelled from the spec: [solve(operator, generalizedOperator?,
    targetDimension, backend)], with the method's stated order and the
    iteration budget of the iterative backend made explicit.
    - [EIGEN_DENSE_SELFADJOINT_SOLVER] converts to dense, computes the full
      spectrum, then selects;
    - [ARPACK] converges within its budget or fails with
      [ConvergenceError];
    - [RANDOMIZED] fails with [UnsupportedProblemError] on a generalized
      problem;
    - [UNKNOWN_EIGEN_METHOD] selects no backend, which is a backend
      mismatch. *)
Definition solve `{EigenBackends} (operator : Operator)
    (generalizedOperator : option Operator) (targetDimension : nat)
    (backend : TAPKEE_EIGEN_EMBEDDING_METHOD) (order : EigenOrder)
    (budget : nat) : Error + list Eigenpair :=
  match backend with
  | EIGEN_DENSE_SELFADJOINT_SOLVER =>
      inr (select_eigenpairs order targetDimension
             (full_spectrum (to_dense operator)
                (to_dense <$> generalizedOperator)))
  | ARPACK =>
      match krylov_iterate budget
              (krylov_start operator generalizedOperator targetDimension
                 order) with
      | Some s => inr (ritz_pairs s)
      | None => inl ConvergenceError
      end
  | RANDOMIZED =>
      match generalizedOperator with
      | Some _ => inl UnsupportedProblemError
      | None => inr (range_finder operator targetDimension order)
      end
  | UNKNOWN_EIGEN_METHOD => inl UnsupportedProblemError
  end.

(** The pairs of a list stand in the given order, each before all that
    follow it. *)
Definition in_order `{EigenBackends} (order : EigenOrder)
    (l : list Eigenpair) : Prop :=
  StronglySorted (fun p q => pair_leb order p q = true) l.

(** *** A backend over exact scalars, for diagonal operators *)

(** Rational scalars, vectors and matrices as sequences. *)
Definition rational_types : TapkeeTypes :=
  {| DefaultScalarType := Q;
     DenseVector := list Q;
     DenseMatrix := list (list Q);
     SparseWeightMatrix := list (SparseTriplet Q) |}.

(** The [i]-th unit vector of length [n]. *)
Definition unit_vector (n i : nat) : list Q :=
  map (fun j => if Nat.eqb i j then 1%Q else 0%Q) (seq 0 n).

(** The eigenpairs of a diagonal matrix: each diagonal entry with the unit
    vector of its row. *)
Definition diagonal_spectrum (d : list (list Q)) : list (Q * list Q) :=
  map (fun i => (nth i (nth i d []) 0%Q, unit_vector (length d) i))
      (seq 0 (length d)).

(** A backend for diagonal operators, which serves to run [solve] on
    examples.  Its iterative and its randomized method answer with the pairs
    of the first rows; the iterative one needs as many restarts as the
    operator has rows. *)
Definition diagonal_backends : @EigenBackends rational_types :=
  @Build_EigenBackends rational_types
    (list (list Q))
    Qle_bool
    (fun d => d)
    (fun d _ => diagonal_spectrum d)
    (nat * list (Q * list Q))%type
    (fun d _ k _ => (length d, firstn k (diagonal_spectrum d)))
    (fun s => (Nat.pred (fst s), snd s))
    (fun s => Nat.eqb (fst s) 0)
    (fun s => snd s)
    (fun d k _ => firstn k (diagonal_spectrum d)).

(** *** A backend over doubles, for diagonal operators *)

(** Modelled from the spec: what "ascending" and "descending by eigenvalue"
    say of two eigenpairs over the header's [double], in the order of the
    IEEE comparison [<=]: [p] may stand before [q]. *)
Definition eigenvalues_in_order (order : EigenOrder)
    (p q : double * list double) : Prop :=
  match order with
  | Ascending => PrimFloat.leb (fst p) (fst q) = true
  | Descending => PrimFloat.leb (fst q) (fst p) = true
  end.

(** An eigenvalue that is a number: the IEEE comparison holds of a value and
    itself exactly when the value is not a NaN. *)
Definition is_number (x : double) : Prop := PrimFloat.leb x x = true.

Definition unit_vector_double (n i : nat) : list double :=
  map (fun j => if Nat.eqb i j then 1%float else 0%float) (seq 0 n).

Definition diagonal_spectrum_double (d : list (list double))
    : list (double * list double) :=
  map (fun i => (nth i (nth i d []) 0%float,
                 unit_vector_double (length d) i))
      (seq 0 (length d)).

(** The backend for diagonal operators over the header's own types; it
    compares scalars by the IEEE [<=]. *)
Definition diagonal_backends_double : @EigenBackends default_types :=
  @Build_EigenBackends default_types
    (list (list double))
    PrimFloat.leb
    (fun d => d)
    (fun d _ => diagonal_spectrum_double d)
    (nat * list (double * list double))%type
    (fun d _ k _ => (length d, firstn k (diagonal_spectrum_double d)))
    (fun s => (Nat.pred (fst s), snd s))
    (fun s => Nat.eqb (fst s) 0)
    (fun s => snd s)
    (fun d k _ => firstn k (diagonal_spectrum_double d)).

(* ===================================================================== *)
(** ** The header's preprocessing directives *)
(* ===================================================================== *)

(** The directives of a header, conditional groups nested as they are
    written, and between them the declarations the header makes, each by the
    name it declares.  The macros are object-like: a name and its
    replacement text. *)
#[warnings="-register-all"]
Inductive directive : Type :=
  | pp_define (name replacement : string)
  | pp_undef (name : string)
  | pp_ifdef (name : string) (group alternative : list directive)
  | pp_ifndef (name : string) (group alternative : list directive)
  | pp_include (file : string)
  | pp_include_macro (name : string)
  | declaration (name : string).

(** A translation unit while it is preprocessed: the macros defined so far,
    the names this header has declared so far, and the files included so
    far, each with the macros that were defined when its inclusion began. *)
Record Translation : Type := {
  macros : gmap string string;
  declarations : list string;
  inclusions : list (string * gmap string string)
}.

(** The files a translation unit includes are not part of the header: what
    one of them does to the macros is a parameter.  A file is identified by
    the operand of its [#include], without the delimiters. *)
Class IncludedFiles : Type := {
  file_effect : string -> gmap string string -> gmap string string
}.

Definition include_file `{IncludedFiles} (file : string) (t : Translation)
    : Translation :=
  {| macros := file_effect file (macros t);
     declarations := declarations t;
     inclusions := inclusions t ++ [(file, macros t)] |}.

(** The directives of a group, in order, given what one directive does.  A
    group stops at its first ill-formed directive. *)
Definition process_group_with
    (process : directive -> Translation -> option Translation)
    : list directive -> Translation -> option Translation :=
  fix process_group_with (ds : list directive) (t : Translation)
      : option Translation :=
    match ds with
    | [] => Some t
    | d :: ds' =>
        match process d t with
        | Some t' => process_group_with ds' t'
        | None => None
        end
    end.

(** One directive.  [#define] of a defined macro replaces its text, as the
    compilers do; [#include] of a macro name includes the file its
    replacement text names and is ill-formed, [None], when the name is not a
    macro.  Every operand is taken as the name of a file that can be
    included: whether a replacement text has the form of a file name, and
    whether the file exists, is not looked at, so [Some] says that the
    directives are well-formed as far as the defined macros decide, not
    that a compiler finds the files. *)
Fixpoint process `{IncludedFiles} (d : directive) (t : Translation)
    {struct d} : option Translation :=
  match d with
  | pp_define name replacement =>
      Some {| macros := <[name := replacement]> (macros t);
              declarations := declarations t;
              inclusions := inclusions t |}
  | pp_undef name =>
      Some {| macros := delete name (macros t);
              declarations := declarations t;
              inclusions := inclusions t |}
  | pp_ifdef name group alternative =>
      match macros t !! name with
      | Some _ => process_group_with process group t
      | None => process_group_with process alternative t
      end
  | pp_ifndef name group alternative =>
      match macros t !! name with
      | Some _ => process_group_with process alternative t
      | None => process_group_with process group t
      end
  | pp_include file => Some (include_file file t)
  | pp_include_macro name =>
      match macros t !! name with
      | Some file => Some (include_file file t)
      | None => None
      end
  | declaration name =>
      Some {| macros := macros t;
              declarations := declarations t ++ [name];
              inclusions := inclusions t |}
  end.

(** The directives of a group, in order. *)
Definition process_group `{IncludedFiles}
    : list directive -> Translation -> option Translation :=
  process_group_with process.

(** The translation after [#define], after [#undef], after a run of
    declarations and after a run of inclusions. *)
Definition define_macro (name replacement : string) (t : Translation)
    : Translation :=
  {| macros := <[name := replacement]> (macros t);
     declarations := declarations t;
     inclusions := inclusions t |}.

Definition undefine_macro (name : string) (t : Translation) : Translation :=
  {| macros := delete name (macros t);
     declarations := declarations t;
     inclusions := inclusions t |}.

Definition declare_names (names : list string) (t : Translation)
    : Translation :=
  {| macros := macros t;
     declarations := declarations t ++ names;
     inclusions := inclusions t |}.

Definition include_files `{IncludedFiles} (files : list string)
    (t : Translation) : Translation :=
  fold_left (fun t' file => include_file file t') files t.

(** *** The header, block by block *)

(** The headers included first. *)
Definition leading_headers : list string :=
  [ "utils/any.hpp"; "utils/time.hpp"; "utils/logging.hpp"; "map";
    "vector"; "utility" ]%string.

Definition leading_block : list directive :=
  [ pp_include "utils/any.hpp";
    pp_include "utils/time.hpp";
    pp_include "utils/logging.hpp";
    pp_include "map";
    pp_include "vector";
    pp_include "utility" ].

(** The Eigen headers, and before them the macros that configure them. *)
Definition eigen_headers : list string :=
  [ "eigen3/Eigen/Dense"; "eigen3/Eigen/Sparse";
    "eigen3/Eigen/SparseCholesky" ]%string.

Definition eigen_block : list directive :=
  [ pp_ifndef "TAPKEE_DEBUG" [ pp_define "EIGEN_NO_DEBUG" "" ] [];
    pp_define "EIGEN_RUNTIME_NO_MALLOC" "";
    pp_define "EIGEN_DONT_PARALLELIZE" "";
    pp_include "eigen3/Eigen/Dense";
    pp_include "eigen3/Eigen/Sparse";
    pp_include "eigen3/Eigen/SparseCholesky" ].

(** The macros that switch allocation inside Eigen off and on. *)
Definition allocation_block : list directive :=
  [ pp_ifdef "EIGEN_RUNTIME_NO_MALLOC"
      [ pp_define "RESTRICT_ALLOC"
          "Eigen::internal::set_is_malloc_allowed(false);";
        pp_define "UNRESTRICT_ALLOC"
          "Eigen::internal::set_is_malloc_allowed(true);" ]
      [ pp_define "RESTRICT_ALLOC" "";
        pp_define "UNRESTRICT_ALLOC" "" ] ].

(** The typedefs of the [#else] branch of [TAPKEE_CUSTOM_TYPES]. *)
Definition default_typedefs : list string :=
  [ "DefaultScalarType"; "DenseVector"; "DenseMatrix";
    "DenseSymmetricMatrix"; "SparseWeightMatrix";
    "DefaultDenseSelfAdjointEigenSolver"; "DefaultSparseSolver" ]%string.

Definition types_block : list directive :=
  [ pp_ifdef "TAPKEE_CUSTOM_TYPES"
      [ pp_include_macro "TAPKEE_CUSTOM_TYPES" ]
      [ declaration "DefaultScalarType";
        declaration "DenseVector";
        declaration "DenseMatrix";
        declaration "DenseSymmetricMatrix";
        declaration "SparseWeightMatrix";
        declaration "DefaultDenseSelfAdjointEigenSolver";
        declaration "DefaultSparseSolver" ] ].

Definition properties_block : list directive :=
  [ pp_ifdef "TAPKEE_CUSTOM_PROPERTIES"
      [ pp_include_macro "TAPKEE_CUSTOM_PROPERTIES" ]
      [ pp_define "COVERTREE_BASE" "1.3" ] ].

(** The types the header declares whatever the configuration. *)
Definition parameter_and_method_types : list string :=
  [ "TAPKEE_PARAMETERS"; "ParametersMap"; "TAPKEE_METHOD";
    "TAPKEE_NEIGHBORS_METHOD"; "TAPKEE_EIGEN_EMBEDDING_METHOD" ]%string.

Definition internal_typedefs : list string :=
  [ "SparseTriplet"; "SparseTriplets"; "LocalNeighbors"; "Neighbors";
    "EmbeddingResult"; "ProjectionResult"; "DenseDiagonalMatrix";
    "Landmarks"; "Laplacian"; "DenseSymmetricMatrixPair" ]%string.

Definition projecting_types : list string :=
  [ "ProjectingImplementation"; "ProjectingFunction" ]%string.

Definition declarations_block : list directive :=
  [ declaration "TAPKEE_PARAMETERS";
    declaration "ParametersMap";
    declaration "TAPKEE_METHOD";
    declaration "TAPKEE_NEIGHBORS_METHOD";
    declaration "TAPKEE_EIGEN_EMBEDDING_METHOD";
    pp_define "INTERNAL_VECTOR" "std::vector";
    pp_define "INTERNAL_PAIR" "std::pair";
    declaration "SparseTriplet";
    declaration "SparseTriplets";
    declaration "LocalNeighbors";
    declaration "Neighbors";
    declaration "EmbeddingResult";
    declaration "ProjectionResult";
    declaration "DenseDiagonalMatrix";
    declaration "Landmarks";
    declaration "Laplacian";
    declaration "DenseSymmetricMatrixPair";
    pp_undef "INTERNAL_VECTOR";
    pp_undef "INTERNAL_PAIR";
    pp_include "callbacks/traits.hpp";
    declaration "ProjectingImplementation";
    declaration "ProjectingFunction" ].

(** What stands between [#define TAPKEE_DEFINES_H_] and the final
    [#endif]. *)
Definition tapkee_defines_body : list directive :=
  leading_block ++ eigen_block ++ allocation_block ++ types_block
  ++ properties_block ++ declarations_block.

(** The header, inside its include guard. *)
Definition tapkee_defines : list directive :=
  [ pp_ifndef "TAPKEE_DEFINES_H_"
      (pp_define "TAPKEE_DEFINES_H_" "" :: tapkee_defines_body)
      [] ].

(** [#include "tapkee_defines.hpp"]. *)
Definition include_tapkee_defines `{IncludedFiles} (t : Translation)
    : option Translation :=
  process_group tapkee_defines t.

(** The header included [n] times in a row. *)
Fixpoint include_repeatedly `{IncludedFiles} (n : nat) (t : Translation)
    : option Translation :=
  match n with
  | O => Some t
  | S n' =>
      match include_tapkee_defines t with
      | Some t' => include_repeatedly n' t'
      | None => None
      end
  end.

(** *** What each block does to a translation *)

Definition eigen_stage `{IncludedFiles} (t : Translation) : Translation :=
  include_files eigen_headers
    (define_macro "EIGEN_DONT_PARALLELIZE" ""
       (define_macro "EIGEN_RUNTIME_NO_MALLOC" ""
          (match macros t !! "TAPKEE_DEBUG"%string with
           | Some _ => t
           | None => define_macro "EIGEN_NO_DEBUG" "" t
           end))).

Definition allocation_stage (t : Translation) : Translation :=
  match macros t !! "EIGEN_RUNTIME_NO_MALLOC"%string with
  | Some _ =>
      define_macro "UNRESTRICT_ALLOC"
        "Eigen::internal::set_is_malloc_allowed(true);"
        (define_macro "RESTRICT_ALLOC"
           "Eigen::internal::set_is_malloc_allowed(false);" t)
  | None => define_macro "UNRESTRICT_ALLOC" "" (define_macro "RESTRICT_ALLOC" "" t)
  end.

Definition types_stage `{IncludedFiles} (t : Translation) : Translation :=
  match macros t !! "TAPKEE_CUSTOM_TYPES"%string with
  | Some file => include_file file t
  | None => declare_names default_typedefs t
  end.

Definition properties_stage `{IncludedFiles} (t : Translation)
    : Translation :=
  match macros t !! "TAPKEE_CUSTOM_PROPERTIES"%string with
  | Some file => include_file file t
  | None => define_macro "COVERTREE_BASE" "1.3" t
  end.

Definition declarations_stage `{IncludedFiles} (t : Translation)
    : Translation :=
  declare_names projecting_types
    (include_file "callbacks/traits.hpp"
       (undefine_macro "INTERNAL_PAIR"
          (undefine_macro "INTERNAL_VECTOR"
             (declare_names internal_typedefs
                (define_macro "INTERNAL_PAIR" "std::pair"
                   (define_macro "INTERNAL_VECTOR" "std::vector"
                      (declare_names parameter_and_method_types t))))))).

(** The translation after the whole body of the header. *)
Definition after_body `{IncludedFiles} (t : Translation) : Translation :=
  declarations_stage
    (properties_stage
       (types_stage
          (allocation_stage
             (eigen_stage
                (include_files leading_headers
                   (define_macro "TAPKEE_DEFINES_H_" "" t)))))).

(** The included file leaves the macro of this name as it finds it. *)
Definition leaves `{IncludedFiles} (file name : string) : Prop :=
  forall table : gmap string string,
    file_effect file table !! name = table !! name.

(** No included file touches any of these macros. *)
Definition files_leave `{IncludedFiles} (names : list string) : Prop :=
  forall file name, In name names -> leaves file name.

(** Files for the examples: the file [<my_properties.hpp>] defines
    [COVERTREE_BASE] as [2.0], and no other file defines or undefines a
    macro. *)
Definition example_files : IncludedFiles :=
  {| file_effect := fun (file : string) (table : gmap string string) =>
       if decide (file = "<my_properties.hpp>"%string)
       then <[ "COVERTREE_BASE"%string := "2.0"%string ]> table
       else table |}.

(** A translation unit at its start, with the macros of the command line. *)
Definition start (command_line : gmap string string) : Translation :=
  {| macros := command_line; declarations := []; inclusions := [] |}.

(* ===================================================================== *)
(** * Properties *)
(* ===================================================================== *)

(** ** The enumerations are closed and numbered from zero *)

Lemma Parameters_all_complete (k : TAPKEE_PARAMETERS) : In k Parameters.all.
Proof. destruct k; simpl; tauto. Qed.

Lemma Method_all_complete (m : TAPKEE_METHOD) : In m Method.all.
Proof. destruct m; simpl; tauto. Qed.

Lemma Parameters_of_value_value (k : TAPKEE_PARAMETERS) :
  Parameters.of_value (Parameters.value k) = Some k.
Proof. destruct k; reflexivity. Qed.

Lemma Method_of_value_value (m : TAPKEE_METHOD) :
  Method.of_value (Method.value m) = Some m.
Proof. destruct m; reflexivity. Qed.

Lemma NeighborsMethod_of_value_value (m : TAPKEE_NEIGHBORS_METHOD) :
  NeighborsMethod.of_value (NeighborsMethod.value m) = Some m.
Proof. destruct m; reflexivity. Qed.

Lemma EigenMethod_of_value_value (m : TAPKEE_EIGEN_EMBEDDING_METHOD) :
  EigenMethod.of_value (EigenMethod.value m) = Some m.
Proof. destruct m; reflexivity. Qed.

(** A parameters map has at most one binding per enumerator. *)
Lemma ParametersMap_size_bound (m : ParametersMap) :
  size m <= length Parameters.all.
Proof.
  assert (NoDup Parameters.all) as Hnodup
    by (apply (bool_decide_unpack _); vm_compute; exact I).
  rewrite <- (size_dom (D := gset TAPKEE_PARAMETERS)).
  rewrite <- (size_list_to_set (C := gset TAPKEE_PARAMETERS) _ Hnodup).
  apply subseteq_size.
  intros k _. apply elem_of_list_to_set, list_elem_of_In.
  apply Parameters_all_complete.
Qed.

(** ** The parameters map and its keys *)

(** C1, as stated, fails: the key [CURRENT_DIMENSION] of the enumeration is
    none of the listed options. *)
Lemma current_dimension_is_not_listed :
  exists k : TAPKEE_PARAMETERS, forall o : ListedOption, listed_key o <> k.
Proof. exists CURRENT_DIMENSION. intros o; destruct o; discriminate. Qed.

(** C1 (amended).  The parameters map binds keys of a closed enumeration of
    fourteen keys to dynamically-typed values, at most one value per key.
    The thirteen listed options name thirteen different keys, and every key
    of the enumeration is one of the listed options or
    [CURRENT_DIMENSION], which is none of them. *)
Theorem parameters_map_keys :
  length Parameters.all = 14
  /\ (forall k : TAPKEE_PARAMETERS,
        In k Parameters.all
        /\ Parameters.of_value (Parameters.value k) = Some k
        /\ (k = CURRENT_DIMENSION \/ exists o, listed_key o = k))
  /\ (forall o1 o2 : ListedOption,
        o1 = o2 \/ listed_key o1 <> listed_key o2)
  /\ (forall o : ListedOption, listed_key o <> CURRENT_DIMENSION)
  /\ (forall (m : ParametersMap) (k : TAPKEE_PARAMETERS) (v : any),
        <[k := v]> m !! k = Some v /\ size m <= 14).
Proof.
  split; [reflexivity | ].
  split.
  { intros k. split; [apply Parameters_all_complete | ].
    split; [apply Parameters_of_value_value | ].
    destruct k;
      first [ left; reflexivity
            | right;
              first [ exists opt_method; reflexivity
                    | exists opt_neighbor_count; reflexivity
                    | exists opt_target_dimension; reflexivity
                    | exists opt_eigen_embedding_backend; reflexivity
                    | exists opt_neighbor_search_backend; reflexivity
                    | exists opt_diffusion_time_steps; reflexivity
                    | exists opt_kernel_width; reflexivity
                    | exists opt_max_iterations; reflexivity
                    | exists opt_landmark_ratio; reflexivity
                    | exists opt_eigenvalue_shift; reflexivity
                    | exists opt_proximity_embedding_tolerance; reflexivity
                    | exists opt_proximity_embedding_update_count;
                      reflexivity
                    | exists opt_proximity_embedding_global_strategy;
                      reflexivity ] ]. }
  split.
  { intros o1 o2.
    destruct o1, o2; first [ left; reflexivity | right; discriminate ]. }
  split.
  { intros o; destruct o; discriminate. }
  intros m k v. split.
  - apply lookup_insert_eq.
  - apply (ParametersMap_size_bound m).
Qed.

(** ** The reduction methods *)

(** C2, as stated, fails: the member [UNKNOWN_METHOD] of the enumeration
    corresponds to no listed algorithm. *)
Lemma unknown_method_is_not_listed :
  exists m : TAPKEE_METHOD, forall a : ListedAlgorithm, listed_method a <> m.
Proof. exists UNKNOWN_METHOD. intros a; destruct a; discriminate. Qed.

(** C2 (amended).  The reduction method is a closed enumeration of sixteen
    members.  Every listed algorithm has a member of its own, and the members
    that correspond to no listed algorithm are exactly
    [NEIGHBORHOOD_PRESERVING_EMBEDDING],
    [LINEAR_LOCAL_TANGENT_SPACE_ALIGNMENT] and [UNKNOWN_METHOD]. *)
Theorem method_enumeration_and_listed_algorithms :
  length Method.all = 16
  /\ (forall m : TAPKEE_METHOD,
        In m Method.all
        /\ Method.of_value (Method.value m) = Some m
        /\ ((exists a, listed_method a = m)
            \/ m = NEIGHBORHOOD_PRESERVING_EMBEDDING
            \/ m = LINEAR_LOCAL_TANGENT_SPACE_ALIGNMENT
            \/ m = UNKNOWN_METHOD))
  /\ (forall a1 a2 : ListedAlgorithm,
        a1 = a2 \/ listed_method a1 <> listed_method a2)
  /\ (forall a : ListedAlgorithm,
        listed_method a <> NEIGHBORHOOD_PRESERVING_EMBEDDING
        /\ listed_method a <> LINEAR_LOCAL_TANGENT_SPACE_ALIGNMENT
        /\ listed_method a <> UNKNOWN_METHOD).
Proof.
  split; [reflexivity | ].
  split.
  { intros m. split; [apply Method_all_complete | ].
    split; [apply Method_of_value_value | ].
    destruct m;
      first [ right; left; reflexivity
            | right; right; left; reflexivity
            | right; right; right; reflexivity
            | left;
              first [ exists alg_LLE; reflexivity
                    | exists alg_LTSA; reflexivity
                    | exists alg_Hessian_LLE; reflexivity
                    | exists alg_Laplacian_Eigenmaps; reflexivity
                    | exists alg_Locality_Preserving_Projections;
                      reflexivity
                    | exists alg_Diffusion_Maps; reflexivity
                    | exists alg_Isomap; reflexivity
                    | exists alg_Landmark_Isomap; reflexivity
                    | exists alg_MDS; reflexivity
                    | exists alg_Landmark_MDS; reflexivity
                    | exists alg_Stochastic_Proximity_Embedding; reflexivity
                    | exists alg_PCA; reflexivity
                    | exists alg_Kernel_PCA; reflexivity ] ]. }
  split.
  { intros a1 a2.
    destruct a1, a2; first [ left; reflexivity | right; discriminate ]. }
  intros a; destruct a; repeat split; discriminate.
Qed.

(** ** The sentinels *)

(** C9.  Each of the three enumerations has an [UNKNOWN] member: it is an
    enumerator, the last one, its value can be read back as itself, and every
    other member has a smaller value, so it differs from each of them. *)
Theorem unknown_sentinels :
  (In UNKNOWN_METHOD Method.all
   /\ last_enumerator = Some UNKNOWN_METHOD
   /\ Method.of_value (Method.value UNKNOWN_METHOD) = Some UNKNOWN_METHOD
   /\ forall m : TAPKEE_METHOD,
        m = UNKNOWN_METHOD
        \/ (0 <= Method.value m < Method.value UNKNOWN_METHOD)%Z)
  /\ (In UNKNOWN_NEIGHBORS_METHOD NeighborsMethod.all
      /\ last_enumerator = Some UNKNOWN_NEIGHBORS_METHOD
      /\ NeighborsMethod.of_value
           (NeighborsMethod.value UNKNOWN_NEIGHBORS_METHOD)
         = Some UNKNOWN_NEIGHBORS_METHOD
      /\ forall m : TAPKEE_NEIGHBORS_METHOD,
           m = UNKNOWN_NEIGHBORS_METHOD
           \/ (0 <= NeighborsMethod.value m
               < NeighborsMethod.value UNKNOWN_NEIGHBORS_METHOD)%Z)
  /\ (In UNKNOWN_EIGEN_METHOD EigenMethod.all
      /\ last_enumerator = Some UNKNOWN_EIGEN_METHOD
      /\ EigenMethod.of_value (EigenMethod.value UNKNOWN_EIGEN_METHOD)
         = Some UNKNOWN_EIGEN_METHOD
      /\ forall m : TAPKEE_EIGEN_EMBEDDING_METHOD,
           m = UNKNOWN_EIGEN_METHOD
           \/ (0 <= EigenMethod.value m
               < EigenMethod.value UNKNOWN_EIGEN_METHOD)%Z).
Proof.
  repeat split; try reflexivity; try (simpl; tauto);
    intros m; destruct m;
      first [ left; reflexivity | right; simpl; lia ].
Qed.

(** ** The cover-tree base *)

(** One level further down, the covering radius is the radius above divided
    by the base. *)
Lemma covering_radius_step (base top : Q) (depth : nat) :
  ~ (base == 0)%Q ->
  (covering_radius base top depth
   == base * covering_radius base top (S depth))%Q.
Proof.
  intros Hbase. unfold covering_radius.
  rewrite Nat2Z.inj_succ, <- Z.add_1_r, Qpower_plus by exact Hbase.
  assert (~ (base ^ Z.of_nat depth == 0)%Q) as Hpow
    by (apply Qpower_not_0; exact Hbase).
  change (base ^ 1)%Q with base.
  field. split; assumption.
Qed.

(** With a base above one and a positive radius at the root, the radius gets
    strictly smaller from each level to the next. *)
Lemma covering_radius_shrinks (base top : Q) (depth : nat) :
  (1 < base)%Q -> (0 < top)%Q ->
  (0 < covering_radius base top (S depth)
   /\ covering_radius base top (S depth) < covering_radius base top depth)%Q.
Proof.
  intros Hbase Htop.
  assert (0 < base)%Q as Hpos by (eapply Qlt_trans; [ | exact Hbase]; reflexivity).
  assert (~ (base == 0)%Q) as Hne
    by (intros Heq; rewrite Heq in Hpos; discriminate).
  assert (0 < covering_radius base top (S depth))%Q as Hrad.
  { unfold covering_radius. apply Qlt_shift_div_l.
    - apply Qpower_0_lt; exact Hpos.
    - rewrite Qmult_0_l; exact Htop. }
  split; [exact Hrad | ].
  rewrite (covering_radius_step base top depth Hne).
  rewrite <- (Qmult_1_l (covering_radius base top (S depth))) at 1.
  apply Qmult_lt_compat_r; assumption.
Qed.

(** C3.  Without custom properties the base is exactly 1.3; a custom
    properties file overrides it with any value it defines; and in the cover
    tree the covering radius of a level is the base times the radius of the
    level below, so with the default base the radius shrinks by the factor
    1.3 from level to level. *)
Theorem covertree_base_default_and_override :
  COVERTREE_BASE None = Some (13 # 10)
  /\ (forall b : Q,
        COVERTREE_BASE (Some {| custom_COVERTREE_BASE := Some b |}) = Some b)
  /\ (forall (top : Q) (depth : nat),
        exists base,
          COVERTREE_BASE None = Some base
          /\ (covering_radius base top depth
              == (13 # 10) * covering_radius base top (S depth))%Q
          /\ ((0 < top)%Q ->
              (0 < covering_radius base top (S depth)
               /\ covering_radius base top (S depth)
                  < covering_radius base top depth)%Q)).
Proof.
  split; [reflexivity | ].
  split; [reflexivity | ].
  intros top depth. exists (13 # 10). split; [reflexivity | ].
  split.
  - apply covering_radius_step. discriminate.
  - intros Htop. apply covering_radius_shrinks; [reflexivity | exact Htop].
Qed.

Lemma covertree_base_default_and_override_witness :
  (0 < covering_radius (13 # 10) 1 1
   /\ covering_radius (13 # 10) 1 1 < covering_radius (13 # 10) 1 0)%Q.
Proof.
  destruct covertree_base_default_and_override as (_ & _ & Hradius).
  destruct (Hradius 1%Q 0%nat) as (base & Hbase & _ & Hshrinks).
  injection Hbase as <-.
  apply Hshrinks. reflexivity.
Defined.

(** ** The projecting function *)


(** A call that does not end in undefined behaviour in the call operator
    itself went through the address of a live object. *)
Lemma ProjectingFunction_call_returns `{Overrides} (self : positive)
    (vec out : DenseVector) (m m' : Memory) :
  ProjectingFunction_call self vec m = Returns out m' ->
  exists f a obj,
    functions m !! self = Some f
    /\ implementation f = address a
    /\ implementations m !! a = Some obj
    /\ project (dynamic_class obj) a vec m = Returns out m'.
Proof.
  unfold ProjectingFunction_call. intros Hcall.
  destruct (functions m !! self) as [f | ] eqn:Hf; [ | discriminate].
  destruct (implementation f) as [ | a] eqn:Hptr; [discriminate | ].
  destruct (implementations m !! a) as [obj | ] eqn:Hobj; [ | discriminate].
  exists f, a, obj. repeat split; assumption || reflexivity.
Qed.







(** C10.  The constructor stores a null pointer like any other, and the call
    operator goes through the stored pointer without a test: calling a
    projecting function constructed from the null pointer is undefined
    behaviour in every memory and for every input, and a call that returns
    went through a pointer that is not null. *)
Theorem call_requires_non_null_implementation `{Overrides} (m : Memory)
    (self : positive) (vec : DenseVector) :
  functions (ProjectingFunction_ctor self nullptr m) !! self
  = Some {| implementation := nullptr |}
  /\ ProjectingFunction_call self vec (ProjectingFunction_ctor self nullptr m)
     = UndefinedBehaviour
  /\ (forall (out : DenseVector) (m' : Memory),
        ProjectingFunction_call self vec m = Returns out m' ->
        exists f,
          functions m !! self = Some f /\ implementation f <> nullptr).
Proof.
  split; [apply lookup_insert_eq | ].
  split.
  { unfold ProjectingFunction_call, ProjectingFunction_ctor. simpl.
    rewrite lookup_insert_eq. reflexivity. }
  intros out m' Hcall.
  destruct (ProjectingFunction_call_returns self vec out m m' Hcall)
    as (f & a & obj & Hf & Hptr & _).
  exists f. split; [exact Hf | ]. rewrite Hptr. discriminate.
Qed.

Lemma call_requires_non_null_implementation_witness :
  exists f : ProjectingFunction,
    functions (one_function reversing_implementation) !! 1%positive = Some f
    /\ implementation f <> nullptr.
Proof.
  destruct (@call_requires_non_null_implementation default_types
              example_derivation example_overrides
              (one_function reversing_implementation) 1%positive
              [1%float; 2%float]) as (_ & _ & Hreturns).
  eapply Hreturns. reflexivity.
Defined.

(** ** The eigenproblem solver backends *)

(** *** The IEEE comparison on numbers *)

Ltac compare_cases :=
  repeat match goal with
         | |- context [(?x ?= ?y)%Z] => destruct (Z.compare_spec x y)
         | |- context [Pos.compare_cont Eq ?x ?y] =>
             change (Pos.compare_cont Eq x y) with (Pos.compare x y);
             destruct (Pos.compare_spec x y)
         | H : context [(?x ?= ?y)%Z] |- _ => destruct (Z.compare_spec x y)
         | H : context [Pos.compare_cont Eq ?x ?y] |- _ =>
             change (Pos.compare_cont Eq x y) with (Pos.compare x y) in H;
             destruct (Pos.compare_spec x y)
         end.

Lemma SFleb_trans (a b c : spec_float) :
  SFleb a b = true -> SFleb b c = true -> SFleb a c = true.
Proof.
  unfold SFleb, SFcompare.
  destruct a as [sa | sa | | sa ma ea], b as [sb | sb | | sb mb eb],
    c as [sc | sc | | sc mc ec];
    try destruct sa; try destruct sb; try destruct sc;
    intros Hab Hbc; try reflexivity; try discriminate;
    compare_cases; simpl in *; try reflexivity; try discriminate; try lia.
Qed.

Lemma SFleb_total (a b : spec_float) :
  SFleb a a = true -> SFleb b b = true ->
  SFleb a b = true \/ SFleb b a = true.
Proof.
  unfold SFleb, SFcompare.
  destruct a as [sa | sa | | sa ma ea], b as [sb | sb | | sb mb eb];
    try destruct sa; try destruct sb;
    intros Ha Hb; try discriminate; try (left; reflexivity);
    try (right; reflexivity);
    compare_cases; simpl in *;
    try (left; reflexivity); try (right; reflexivity); try discriminate;
    try lia.
Qed.

(** The IEEE [<=] is transitive, and any two numbers are comparable. *)
Lemma float_leb_trans (x y z : double) :
  PrimFloat.leb x y = true -> PrimFloat.leb y z = true ->
  PrimFloat.leb x z = true.
Proof. rewrite !leb_spec. apply SFleb_trans. Qed.

Lemma float_leb_total (x y : double) :
  is_number x -> is_number y ->
  PrimFloat.leb x y = true \/ PrimFloat.leb y x = true.
Proof. unfold is_number. rewrite !leb_spec. apply SFleb_total. Qed.

(** *** Selection from a spectrum *)

Section Selection.

Context `{EigenBackends}.

(** The comparison of scalars is transitive, and it is total on the scalars
    it relates to themselves. *)
Hypothesis scalar_leb_trans :
  forall x y z : DefaultScalarType,
    scalar_leb x y = true -> scalar_leb y z = true ->
    scalar_leb x z = true.
Hypothesis scalar_leb_total :
  forall x y : DefaultScalarType,
    scalar_leb x x = true -> scalar_leb y y = true ->
    scalar_leb x y = true \/ scalar_leb y x = true.

Lemma pair_leb_total (order : EigenOrder) (p q : Eigenpair) :
  scalar_leb (fst p) (fst p) = true ->
  scalar_leb (fst q) (fst q) = true ->
  pair_leb order p q = true \/ pair_leb order q p = true.
Proof using scalar_leb_total.
  intros Hp Hq. destruct order; simpl; apply scalar_leb_total; assumption.
Qed.

Lemma pair_leb_trans (order : EigenOrder) (p q r : Eigenpair) :
  pair_leb order p q = true -> pair_leb order q r = true ->
  pair_leb order p r = true.
Proof using scalar_leb_trans.
  destruct order; simpl; intros Hpq Hqr;
    eapply scalar_leb_trans; eassumption.
Qed.

Lemma insert_pair_Permutation (order : EigenOrder) (p : Eigenpair)
    (l : list Eigenpair) :
  Permutation (insert_pair order p l) (p :: l).
Proof using Type.
  induction l as [ | q l IH]; simpl.
  - apply Permutation_refl.
  - destruct (pair_leb order p q).
    + apply Permutation_refl.
    + eapply perm_trans; [apply perm_skip, IH | apply perm_swap].
Qed.

Lemma sort_pairs_Permutation (order : EigenOrder) (l : list Eigenpair) :
  Permutation (sort_pairs order l) l.
Proof using Type.
  induction l as [ | p l IH]; simpl.
  - apply perm_nil.
  - eapply perm_trans; [apply insert_pair_Permutation | ].
    apply perm_skip, IH.
Qed.

Lemma insert_pair_in_order (order : EigenOrder) (p : Eigenpair)
    (l : list Eigenpair) :
  scalar_leb (fst p) (fst p) = true ->
  List.Forall (fun q => scalar_leb (fst q) (fst q) = true) l ->
  in_order order l -> in_order order (insert_pair order p l).
Proof using scalar_leb_total scalar_leb_trans.
  unfold in_order. intros Hp.
  induction l as [ | q l IH]; simpl; intros Hnumbers Hsorted.
  - constructor; constructor.
  - inversion Hsorted as [ | q' l' Hl Hq]; subst.
    inversion Hnumbers as [ | q' l' Hqnumber Hlnumbers]; subst.
    destruct (pair_leb order p q) eqn:Hpq.
    + constructor; [exact Hsorted | ].
      constructor; [exact Hpq | ].
      eapply List.Forall_impl; [ | exact Hq].
      intros r Hqr. eapply pair_leb_trans; eassumption.
    + constructor; [apply IH; assumption | ].
      eapply Permutation_Forall;
        [apply Permutation_sym, insert_pair_Permutation | ].
      constructor; [ | exact Hq].
      destruct (pair_leb_total order p q Hp Hqnumber) as [Habs | Hqp];
        [congruence | exact Hqp].
Qed.

Lemma sort_pairs_in_order (order : EigenOrder) (l : list Eigenpair) :
  List.Forall (fun q => scalar_leb (fst q) (fst q) = true) l ->
  in_order order (sort_pairs order l).
Proof using scalar_leb_total scalar_leb_trans.
  induction l as [ | p l IH]; simpl; intros Hnumbers.
  - constructor.
  - inversion Hnumbers as [ | p' l' Hp Hl]; subst.
    apply insert_pair_in_order; [exact Hp | | apply IH, Hl].
    eapply Permutation_Forall;
      [apply Permutation_sym, sort_pairs_Permutation | exact Hl].
Qed.

(** Cutting a list in order at any position leaves a front part in order
    whose pairs all stand before the pairs cut off. *)
Lemma in_order_cut (order : EigenOrder) (k : nat) (l : list Eigenpair) :
  in_order order l ->
  in_order order (firstn k l)
  /\ forall p q, In p (firstn k l) -> In q (skipn k l) ->
                 pair_leb order p q = true.
Proof using Type.
  unfold in_order. revert l.
  induction k as [ | k IH]; intros l Hsorted.
  - split; [constructor | intros p q []].
  - destruct l as [ | r l]; [split; [constructor | intros p q []] | ].
    inversion Hsorted as [ | r' l' Hl Hr]; subst.
    destruct (IH l Hl) as [Hfront Hcut]. simpl. split.
    + constructor; [exact Hfront | ].
      rewrite List.Forall_forall in Hr |- *.
      intros q Hq. apply Hr.
      rewrite <- (firstn_skipn k l). apply in_or_app. left; exact Hq.
    + intros p q [-> | Hp] Hq.
      * rewrite List.Forall_forall in Hr. apply Hr.
        rewrite <- (firstn_skipn k l). apply in_or_app. right; exact Hq.
      * apply Hcut; assumption.
Qed.

(** What the dense backend returns, in terms of the backend's own
    comparison. *)
Lemma dense_backend_selection (operator : Operator)
    (generalizedOperator : option Operator) (targetDimension : nat)
    (order : EigenOrder) (budget : nat) :
  List.Forall (fun q => scalar_leb (fst q) (fst q) = true)
    (full_spectrum (to_dense operator) (to_dense <$> generalizedOperator)) ->
  exists selected rest : list Eigenpair,
    solve operator generalizedOperator targetDimension
      EIGEN_DENSE_SELFADJOINT_SOLVER order budget = inr selected
    /\ length selected
       = Nat.min targetDimension
           (length (full_spectrum (to_dense operator)
                      (to_dense <$> generalizedOperator)))
    /\ Permutation (selected ++ rest)
         (full_spectrum (to_dense operator)
            (to_dense <$> generalizedOperator))
    /\ in_order order selected
    /\ forall p q, In p selected -> In q rest -> pair_leb order p q = true.
Proof using scalar_leb_total scalar_leb_trans.
  intros Hnumbers.
  set (spectrum := full_spectrum (to_dense operator)
                     (to_dense <$> generalizedOperator)) in *.
  exists (firstn targetDimension (sort_pairs order spectrum)),
         (skipn targetDimension (sort_pairs order spectrum)).
  split; [reflexivity | ].
  split.
  { rewrite List.length_firstn.
    rewrite (Permutation_length (sort_pairs_Permutation order spectrum)).
    reflexivity. }
  split.
  { rewrite firstn_skipn. apply sort_pairs_Permutation. }
  apply in_order_cut, sort_pairs_in_order, Hnumbers.
Qed.

End Selection.

Lemma StronglySorted_weaken {A : Type} (R S : A -> A -> Prop)
    (l : list A) :
  (forall x y, R x y -> S x y) -> StronglySorted R l -> StronglySorted S l.
Proof.
  intros HRS Hsorted.
  induction Hsorted as [ | x l Hl IH Hx]; constructor.
  - exact IH.
  - eapply List.Forall_impl; [ | exact Hx]. intros y. apply HRS.
Qed.

(** C6, as stated, fails: asked for five eigenpairs of an operator with two
    rows, the dense backend returns, as a success, the two eigenpairs the
    full spectrum has. *)
Lemma dense_backend_selects_fewer_than_asked :
  exists selected : list (double * list double),
    @solve default_types diagonal_backends_double
      [[3%float; 0%float]; [0%float; 1%float]] None 5
      EIGEN_DENSE_SELFADJOINT_SOLVER Ascending 0 = inr selected
    /\ length selected = 2
    /\ 2 < 5.
Proof. eexists. split; [reflexivity | ]. split; [reflexivity | lia]. Qed.

(** C6 (amended).  Over the header's doubles, where the backend compares
    eigenvalues by the IEEE [<=] and no eigenvalue of the full spectrum is a
    NaN, the dense backend returns for every operator and every target
    dimension: from the full spectrum of the densified operator it selects
    [targetDimension] eigenpairs, or all of them where the spectrum has
    fewer, and they are the first of the spectrum in the method's stated
    order: they stand in ascending, or descending, order of their
    eigenvalues, and each of them stands before every pair left out. *)
Theorem dense_backend_selects_in_order
    (backends : @EigenBackends default_types)
    (operator : @Operator default_types backends)
    (generalizedOperator : option (@Operator default_types backends))
    (targetDimension : nat) (order : EigenOrder) (budget : nat) :
  (forall x y : double,
     @scalar_leb default_types backends x y = PrimFloat.leb x y) ->
  List.Forall (fun p : double * list double => is_number (fst p))
    (@full_spectrum default_types backends (to_dense operator)
       (to_dense <$> generalizedOperator)) ->
  exists selected rest : list (double * list double),
    @solve default_types backends operator generalizedOperator
      targetDimension EIGEN_DENSE_SELFADJOINT_SOLVER order budget
    = inr selected
    /\ length selected
       = Nat.min targetDimension
           (length (@full_spectrum default_types backends
                      (to_dense operator)
                      (to_dense <$> generalizedOperator)))
    /\ Permutation (selected ++ rest)
         (@full_spectrum default_types backends (to_dense operator)
            (to_dense <$> generalizedOperator))
    /\ StronglySorted (eigenvalues_in_order order) selected
    /\ forall p q, In p selected -> In q rest ->
                   eigenvalues_in_order order p q.
Proof.
  intros Hleb Hnumbers.
  assert (forall p q : double * list double,
            @pair_leb default_types backends order p q = true ->
            eigenvalues_in_order order p q) as Horder.
  { intros p q. unfold pair_leb, eigenvalues_in_order.
    destruct order; rewrite Hleb; intros Hpq; exact Hpq. }
  destruct (@dense_backend_selection default_types backends)
    with (operator := operator) (generalizedOperator := generalizedOperator)
         (targetDimension := targetDimension) (order := order)
         (budget := budget)
    as (selected & rest & Hsolve & Hlength & Hperm & Hsorted & Hcut).
  - intros x y z. rewrite !Hleb. apply float_leb_trans.
  - intros x y. rewrite !Hleb. apply float_leb_total.
  - eapply List.Forall_impl; [ | exact Hnumbers].
    intros p Hp. rewrite Hleb. exact Hp.
  - exists selected, rest.
    split; [exact Hsolve | ]. split; [exact Hlength | ].
    split; [exact Hperm | ]. split.
    + unfold in_order in Hsorted.
      eapply StronglySorted_weaken; [ | exact Hsorted].
      intros p q Hpq. apply Horder. exact Hpq.
    + intros p q Hp Hq. apply Horder, Hcut; assumption.
Qed.

Lemma dense_backend_selects_in_order_witness :
  exists selected rest : list (double * list double),
    @solve default_types diagonal_backends_double
      [[3%float; 0%float]; [0%float; 1%float]] None 1
      EIGEN_DENSE_SELFADJOINT_SOLVER Ascending 0 = inr selected
    /\ length selected = 1
    /\ Permutation (selected ++ rest)
         (diagonal_spectrum_double
            [[3%float; 0%float]; [0%float; 1%float]])
    /\ StronglySorted (eigenvalues_in_order Ascending) selected
    /\ forall p q, In p selected -> In q rest ->
                   eigenvalues_in_order Ascending p q.
Proof.
  apply (@dense_backend_selects_in_order diagonal_backends_double
           [[3%float; 0%float]; [0%float; 1%float]] None 1 Ascending 0).
  - intros x y. reflexivity.
  - repeat constructor.
Defined.

(** The pair the dense backend selects from the diagonal operator with
    entries 3 and 1 is the one of eigenvalue 1 in ascending order, and the
    one of eigenvalue 3 in descending order. *)
Example dense_backend_on_a_diagonal_operator :
  @solve default_types diagonal_backends_double
    [[3%float; 0%float]; [0%float; 1%float]] None 1
    EIGEN_DENSE_SELFADJOINT_SOLVER Ascending 0
  = inr [(1%float, [0%float; 1%float])]
  /\ @solve default_types diagonal_backends_double
       [[3%float; 0%float]; [0%float; 1%float]] None 1
       EIGEN_DENSE_SELFADJOINT_SOLVER Descending 0
     = inr [(3%float, [1%float; 0%float])].
Proof. split; reflexivity. Qed.

(** Why the eigenvalues have to be numbers: a NaN compares with nothing, so
    the backend passes every pair over it, and the three pairs it returns
    for the diagonal entries 1, NaN and 0 do not stand in ascending order. *)
Example dense_backend_on_a_nan :
  exists selected : list (double * list double),
    @solve default_types diagonal_backends_double
      [[1%float; 0%float; 0%float]; [0%float; nan; 0%float];
       [0%float; 0%float; 0%float]] None 3
      EIGEN_DENSE_SELFADJOINT_SOLVER Ascending 0 = inr selected
    /\ map fst selected = [0%float; nan; 1%float]
    /\ ~ StronglySorted (eigenvalues_in_order Ascending) selected.
Proof.
  eexists. split; [reflexivity | ]. split; [reflexivity | ].
  intros Hsorted.
  inversion Hsorted as [ | p l _ Hfirst]; subst.
  inversion Hfirst as [ | q l' Hnan _]; subst.
  vm_compute in Hnan. discriminate Hnan.
Qed.

(** C4.  Given a generalized eigenproblem, the randomized backend fails
    with [UnsupportedProblemError] and returns no eigenpairs; given a
    standard problem it returns; so it returns on standard problems only. *)
Theorem randomized_rejects_generalized_problems `{EigenBackends}
    (operator : Operator) (targetDimension : nat) (order : EigenOrder)
    (budget : nat) :
  (forall B : Operator,
     solve operator (Some B) targetDimension RANDOMIZED order budget
     = inl UnsupportedProblemError)
  /\ (exists pairs,
        solve operator None targetDimension RANDOMIZED order budget
        = inr pairs)
  /\ (forall (generalizedOperator : option Operator) pairs,
        solve operator generalizedOperator targetDimension RANDOMIZED order
          budget = inr pairs ->
        generalizedOperator = None).
Proof.
  split; [reflexivity | ].
  split; [eexists; reflexivity | ].
  intros [B | ] pairs Hsolve; [discriminate Hsolve | reflexivity].
Qed.

Lemma randomized_rejects_generalized_problems_witness :
  @solve rational_types diagonal_backends [[3; 0]; [0; 1]]%Q
    (Some [[1; 0]; [0; 2]]%Q) 1 RANDOMIZED Descending 0
  = inl UnsupportedProblemError
  /\ (None : option (list (list Q))) = None.
Proof.
  destruct (@randomized_rejects_generalized_problems rational_types
              diagonal_backends [[3; 0]; [0; 1]]%Q 1 Descending 0)
    as (Hgeneralized & _ & Hstandard).
  split.
  - apply Hgeneralized.
  - eapply (Hstandard None). reflexivity.
Defined.

(* ===================================================================== *)
(** * Further properties of the header *)
(* ===================================================================== *)

(** ** Exclusive ownership as an invariant *)

Lemma shares_implementation_not_exclusive `{Derivation} (m : Memory) :
  shares_implementation m -> ~ exclusively_owned m.
Proof.
  intros (l1 & l2 & a & f1 & f2 & Hne & H1 & H2 & Hp1 & Hp2) Hexcl.
  apply Hne. exact (Hexcl l1 l2 f1 f2 a H1 H2 Hp1 Hp2).
Qed.

(** X4.  Constructing a projecting function from an address that a
    projecting function elsewhere already holds always ends exclusive
    ownership: the constructor does not test its argument. *)
Theorem ctor_from_a_held_pointer_shares `{Derivation} (m : Memory)
    (l self a : positive) (f : ProjectingFunction) :
  l <> self ->
  functions m !! l = Some f ->
  implementation f = address a ->
  shares_implementation (ProjectingFunction_ctor self (address a) m)
  /\ ~ exclusively_owned (ProjectingFunction_ctor self (address a) m).
Proof.
  intros Hne Hf Hptr.
  assert (shares_implementation (ProjectingFunction_ctor self (address a) m))
    as Hshares.
  { exists l, self, a, f, {| implementation := address a |}.
    split; [exact Hne | ].
    split; [simpl; rewrite lookup_insert_ne by congruence; exact Hf | ].
    split; [apply lookup_insert_eq | ].
    split; [exact Hptr | reflexivity]. }
  split; [exact Hshares | ].
  apply shares_implementation_not_exclusive, Hshares.
Qed.

Lemma ctor_from_a_held_pointer_shares_witness :
  shares_implementation
    (@ProjectingFunction_ctor example_derivation 2%positive
       (address 1%positive) (one_function reversing_implementation))
  /\ ~ exclusively_owned
         (@ProjectingFunction_ctor example_derivation 2%positive
            (address 1%positive) (one_function reversing_implementation)).
Proof.
  apply (@ctor_from_a_held_pointer_shares example_derivation
           (one_function reversing_implementation) 1%positive 2%positive
           1%positive {| implementation := address 1%positive |}).
  - discriminate.
  - reflexivity.
  - reflexivity.
Defined.

(** The memory with one projecting function is exclusively owned. *)
Lemma one_function_exclusively_owned
    (obj : @ProjectingImplementation example_derivation) :
  exclusively_owned (one_function obj).
Proof.
  intros l1 l2 f1 f2 a H1 H2 _ _. simpl in H1, H2.
  destruct (decide (l1 = 1%positive)) as [-> | Hne1];
    [ | rewrite lookup_insert_ne, lookup_empty in H1 by congruence;
        discriminate ].
  destruct (decide (l2 = 1%positive)) as [-> | Hne2];
    [ reflexivity
    | rewrite lookup_insert_ne, lookup_empty in H2 by congruence;
      discriminate ].
Qed.

(** X5.  Exclusive ownership is kept by a constructor call whose pointer is
    null or held by no projecting function elsewhere, and by every
    destruction of a projecting function. *)
Theorem exclusive_ownership_is_kept `{Derivation} (m : Memory)
    (self : positive) (impl : pointer) :
  exclusively_owned m ->
  ((forall l f, l <> self -> functions m !! l = Some f ->
                implementation f = impl -> impl = nullptr) ->
   exclusively_owned (ProjectingFunction_ctor self impl m))
  /\ exclusively_owned (ProjectingFunction_dtor self m).
Proof.
  intros Hexcl. split.
  - intros Hfresh l1 l2 f1 f2 a H1 H2 Hp1 Hp2. simpl in H1, H2.
    destruct (decide (l1 = l2)) as [Heq | Hne]; [exact Heq | exfalso].
    destruct (decide (self = l1)) as [<- | Hne1].
    + rewrite lookup_insert_eq in H1. injection H1 as <-. simpl in Hp1.
      rewrite lookup_insert_ne in H2 by exact Hne.
      assert (impl = nullptr) as Hnull
        by (apply (Hfresh l2 f2); congruence).
      congruence.
    + rewrite lookup_insert_ne in H1 by exact Hne1.
      destruct (decide (self = l2)) as [<- | Hne2].
      * rewrite lookup_insert_eq in H2. injection H2 as <-. simpl in Hp2.
        assert (impl = nullptr) as Hnull
          by (apply (Hfresh l1 f1); congruence).
        congruence.
      * rewrite lookup_insert_ne in H2 by exact Hne2.
        apply Hne. exact (Hexcl l1 l2 f1 f2 a H1 H2 Hp1 Hp2).
  - intros l1 l2 f1 f2 a H1 H2. simpl in H1, H2.
    apply lookup_delete_Some in H1 as [_ H1].
    apply lookup_delete_Some in H2 as [_ H2].
    exact (Hexcl l1 l2 f1 f2 a H1 H2).
Qed.

(** A second projecting function, for an object of its own at address 2,
    and the destruction of the first one. *)
Lemma exclusive_ownership_is_kept_witness :
  exclusively_owned
    (@ProjectingFunction_ctor example_derivation 2%positive
       (address 2%positive) (one_function reversing_implementation))
  /\ exclusively_owned
       (@ProjectingFunction_dtor example_derivation 1%positive
          (one_function reversing_implementation)).
Proof.
  destruct (@exclusive_ownership_is_kept example_derivation
              (one_function reversing_implementation) 2%positive
              (address 2%positive)
              (one_function_exclusively_owned reversing_implementation))
    as (Hctor & _).
  destruct (@exclusive_ownership_is_kept example_derivation
              (one_function reversing_implementation) 1%positive
              (address 2%positive)
              (one_function_exclusively_owned reversing_implementation))
    as (_ & Hdtor).
  split; [ | exact Hdtor].
  apply Hctor. intros l f Hl Hf Hptr. exfalso. simpl in Hf.
  destruct (decide (l = 1%positive)) as [-> | Hne].
  - rewrite lookup_insert_eq in Hf. injection Hf as <-.
    discriminate Hptr.
  - rewrite lookup_insert_ne, lookup_empty in Hf by congruence.
    discriminate Hf.
Defined.

(** ** The preprocessing directives *)

Lemma process_group_cons `{IncludedFiles} (d : directive)
    (ds : list directive) (t : Translation) :
  process_group (d :: ds) t
  = match process d t with
    | Some t' => process_group ds t'
    | None => None
    end.
Proof. reflexivity. Qed.

Lemma process_group_app `{IncludedFiles} (ds1 ds2 : list directive)
    (t : Translation) :
  process_group (ds1 ++ ds2) t
  = match process_group ds1 t with
    | Some t' => process_group ds2 t'
    | None => None
    end.
Proof.
  revert t. induction ds1 as [ | d ds1 IH]; intros t.
  - reflexivity.
  - rewrite <- app_comm_cons, !process_group_cons.
    destruct (process d t) as [t' | ]; [apply IH | reflexivity].
Qed.

Lemma process_ifndef `{IncludedFiles} (name : string)
    (group alternative : list directive) (t : Translation) :
  process (pp_ifndef name group alternative) t
  = match macros t !! name with
    | Some _ => process_group alternative t
    | None => process_group group t
    end.
Proof. reflexivity. Qed.

Lemma process_define `{IncludedFiles} (name replacement : string)
    (t : Translation) :
  process (pp_define name replacement) t
  = Some (define_macro name replacement t).
Proof. reflexivity. Qed.

Lemma process_leading_block `{IncludedFiles} (t : Translation) :
  process_group leading_block t = Some (include_files leading_headers t).
Proof. reflexivity. Qed.

Lemma process_eigen_block `{IncludedFiles} (t : Translation) :
  process_group eigen_block t = Some (eigen_stage t).
Proof.
  unfold eigen_block, eigen_stage. cbn -[lookup insert delete file_effect].
  destruct (macros t !! "TAPKEE_DEBUG"%string); reflexivity.
Qed.

Lemma process_allocation_block `{IncludedFiles} (t : Translation) :
  process_group allocation_block t = Some (allocation_stage t).
Proof.
  unfold allocation_block, allocation_stage.
  cbn -[lookup insert delete file_effect].
  destruct (macros t !! "EIGEN_RUNTIME_NO_MALLOC"%string); reflexivity.
Qed.

Lemma process_types_block `{IncludedFiles} (t : Translation) :
  process_group types_block t = Some (types_stage t).
Proof.
  unfold types_block, types_stage.
  cbn -[lookup insert delete file_effect].
  destruct (macros t !! "TAPKEE_CUSTOM_TYPES"%string); [reflexivity | ].
  unfold declare_names, default_typedefs. rewrite <- !app_assoc.
  reflexivity.
Qed.

Lemma process_properties_block `{IncludedFiles} (t : Translation) :
  process_group properties_block t = Some (properties_stage t).
Proof.
  unfold properties_block, properties_stage.
  cbn -[lookup insert delete file_effect].
  destruct (macros t !! "TAPKEE_CUSTOM_PROPERTIES"%string); reflexivity.
Qed.

Lemma process_declarations_block `{IncludedFiles} (t : Translation) :
  process_group declarations_block t = Some (declarations_stage t).
Proof.
  unfold declarations_block, declarations_stage, declare_names,
    define_macro, undefine_macro, include_file.
  cbn -[lookup insert delete file_effect].
  rewrite <- !app_assoc. reflexivity.
Qed.

(** Including the header, block by block: with the guard defined nothing
    happens, and otherwise the body is processed to its end. *)
Lemma include_tapkee_defines_unfold `{IncludedFiles} (t : Translation) :
  include_tapkee_defines t
  = Some (match macros t !! "TAPKEE_DEFINES_H_"%string with
          | Some _ => t
          | None => after_body t
          end).
Proof.
  unfold include_tapkee_defines, tapkee_defines.
  rewrite process_group_cons, process_ifndef.
  destruct (macros t !! "TAPKEE_DEFINES_H_"%string); [reflexivity | ].
  rewrite process_group_cons, process_define.
  unfold tapkee_defines_body, after_body.
  rewrite process_group_app, process_leading_block.
  rewrite process_group_app, process_eigen_block.
  rewrite process_group_app, process_allocation_block.
  rewrite process_group_app, process_types_block.
  rewrite process_group_app, process_properties_block.
  rewrite process_declarations_block. reflexivity.
Qed.

(** *** What inclusions and blocks leave alone *)

Lemma macros_define_macro (name replacement : string) (t : Translation) :
  macros (define_macro name replacement t)
  = <[name := replacement]> (macros t).
Proof. reflexivity. Qed.

Lemma macros_include_files `{IncludedFiles} (files : list string)
    (name : string) (t : Translation) :
  (forall file, In file files -> leaves file name) ->
  macros (include_files files t) !! name = macros t !! name.
Proof.
  unfold include_files. revert t.
  induction files as [ | file files IH]; intros t Hleave; simpl.
  - reflexivity.
  - rewrite IH by (intros f Hf; apply Hleave; right; exact Hf).
    simpl. apply Hleave. left; reflexivity.
Qed.

Lemma declarations_include_files `{IncludedFiles} (files : list string)
    (t : Translation) :
  declarations (include_files files t) = declarations t.
Proof.
  unfold include_files. revert t.
  induction files as [ | file files IH]; intros t; simpl;
    [reflexivity | rewrite IH; reflexivity].
Qed.

(** The inclusions a run of [#include]s adds: one per file, in order, each
    with a table in which a macro that the files leave alone is as it was
    before the run. *)
Lemma inclusions_include_files `{IncludedFiles} (files : list string)
    (names : list string) (t : Translation) :
  (forall file name, In file files -> In name names -> leaves file name) ->
  exists added : list (string * gmap string string),
    inclusions (include_files files t) = inclusions t ++ added
    /\ map fst added = files
    /\ Forall (fun entry => forall name, In name names ->
                 snd entry !! name = macros t !! name) added.
Proof.
  unfold include_files. revert t.
  induction files as [ | file files IH]; intros t Hleave; simpl.
  - exists []. rewrite app_nil_r. repeat split. constructor.
  - destruct (IH (include_file file t)) as (added & Hlog & Hfiles & Htables).
    { intros f n Hf Hn. apply Hleave; [right; exact Hf | exact Hn]. }
    exists ((file, macros t) :: added). split; [ | split].
    + rewrite Hlog. simpl. rewrite <- app_assoc. reflexivity.
    + simpl. rewrite Hfiles. reflexivity.
    + constructor; [intros n _; reflexivity | ].
      eapply List.Forall_impl; [ | exact Htables].
      intros entry Hentry n Hn. rewrite (Hentry n Hn). simpl.
      apply Hleave; [left; reflexivity | exact Hn].
Qed.

Lemma eigen_stage_frame `{IncludedFiles} (name : string) (t : Translation) :
  name <> "EIGEN_NO_DEBUG"%string ->
  name <> "EIGEN_RUNTIME_NO_MALLOC"%string ->
  name <> "EIGEN_DONT_PARALLELIZE"%string ->
  (forall file, In file eigen_headers -> leaves file name) ->
  macros (eigen_stage t) !! name = macros t !! name.
Proof.
  intros Hdebug Hmalloc Hparallel Hleave. unfold eigen_stage.
  rewrite macros_include_files by exact Hleave. simpl.
  rewrite !lookup_insert_ne by congruence.
  destruct (macros t !! "TAPKEE_DEBUG"%string); [reflexivity | ].
  simpl. apply lookup_insert_ne. congruence.
Qed.

Lemma allocation_stage_frame (name : string) (t : Translation) :
  name <> "RESTRICT_ALLOC"%string ->
  name <> "UNRESTRICT_ALLOC"%string ->
  macros (allocation_stage t) !! name = macros t !! name.
Proof.
  intros Hrestrict Hunrestrict. unfold allocation_stage.
  destruct (macros t !! "EIGEN_RUNTIME_NO_MALLOC"%string); simpl;
    rewrite !lookup_insert_ne by congruence; reflexivity.
Qed.

Lemma types_stage_frame `{IncludedFiles} (name : string) (t : Translation) :
  (forall file, leaves file name) ->
  macros (types_stage t) !! name = macros t !! name.
Proof.
  intros Hleave. unfold types_stage.
  destruct (macros t !! "TAPKEE_CUSTOM_TYPES"%string) as [file | ];
    [apply Hleave | reflexivity].
Qed.

Lemma properties_stage_frame `{IncludedFiles} (name : string)
    (t : Translation) :
  name <> "COVERTREE_BASE"%string ->
  (forall file, leaves file name) ->
  macros (properties_stage t) !! name = macros t !! name.
Proof.
  intros Hbase Hleave. unfold properties_stage.
  destruct (macros t !! "TAPKEE_CUSTOM_PROPERTIES"%string) as [file | ];
    [apply Hleave | ].
  simpl. apply lookup_insert_ne. congruence.
Qed.

Lemma declarations_stage_frame `{IncludedFiles} (name : string)
    (t : Translation) :
  name <> "INTERNAL_VECTOR"%string ->
  name <> "INTERNAL_PAIR"%string ->
  leaves "callbacks/traits.hpp" name ->
  macros (declarations_stage t) !! name = macros t !! name.
Proof.
  intros Hvector Hpair Hleave. unfold declarations_stage. simpl.
  rewrite Hleave, !lookup_delete_ne, !lookup_insert_ne by congruence.
  reflexivity.
Qed.

(** X8.  The header defines or undefines no macro but its guard and its
    eight own names: after an inclusion every other macro that the included
    files leave alone has the replacement text it had before, or is as
    undefined as before. *)
Theorem include_tapkee_defines_frame `{IncludedFiles} (name : string)
    (t t' : Translation) :
  ~ In name [ "TAPKEE_DEFINES_H_"; "EIGEN_NO_DEBUG";
              "EIGEN_RUNTIME_NO_MALLOC"; "EIGEN_DONT_PARALLELIZE";
              "RESTRICT_ALLOC"; "UNRESTRICT_ALLOC"; "COVERTREE_BASE";
              "INTERNAL_VECTOR"; "INTERNAL_PAIR" ]%string ->
  (forall file, leaves file name) ->
  include_tapkee_defines t = Some t' ->
  macros t' !! name = macros t !! name.
Proof.
  intros Hname Hleave Hinclude.
  rewrite include_tapkee_defines_unfold in Hinclude.
  injection Hinclude as <-.
  destruct (macros t !! "TAPKEE_DEFINES_H_"%string); [reflexivity | ].
  simpl in Hname. unfold after_body.
  rewrite declarations_stage_frame by (try apply Hleave; intros ->; tauto).
  rewrite properties_stage_frame by (try apply Hleave; intros ->; tauto).
  rewrite types_stage_frame by exact Hleave.
  rewrite allocation_stage_frame by (intros ->; tauto).
  rewrite eigen_stage_frame
    by (try (intros file _; apply Hleave); intros ->; tauto).
  rewrite macros_include_files by (intros file _; apply Hleave).
  simpl. apply lookup_insert_ne. intros <-. tauto.
Qed.

Lemma example_files_leave (file name : string) :
  name <> "COVERTREE_BASE"%string -> @leaves example_files file name.
Proof.
  intros Hname table. simpl. destruct (decide _); [ | reflexivity].
  apply lookup_insert_ne. congruence.
Qed.

Lemma include_tapkee_defines_frame_witness :
  exists t' : Translation,
    @include_tapkee_defines example_files
      (start {[ "TAPKEE_DEBUG"%string := "1"%string ]}) = Some t'
    /\ macros t' !! "TAPKEE_DEBUG"%string = Some "1"%string.
Proof.
  eexists. split; [apply include_tapkee_defines_unfold | ].
  rewrite (@include_tapkee_defines_frame example_files "TAPKEE_DEBUG"
             (start {[ "TAPKEE_DEBUG"%string := "1"%string ]}) _).
  - reflexivity.
  - simpl. intuition discriminate.
  - intros file. apply example_files_leave. discriminate.
  - apply include_tapkee_defines_unfold.
Defined.

(** *** The include guard *)

Lemma guard_defined_after_body `{IncludedFiles} (t : Translation) :
  files_leave [ "TAPKEE_DEFINES_H_"%string ] ->
  macros (after_body t) !! "TAPKEE_DEFINES_H_"%string = Some ""%string.
Proof.
  intros Hleave.
  assert (forall file, leaves file "TAPKEE_DEFINES_H_") as Hfile
    by (intros file; apply Hleave; left; reflexivity).
  unfold after_body.
  rewrite declarations_stage_frame by (apply Hfile || discriminate).
  rewrite properties_stage_frame by (apply Hfile || discriminate).
  rewrite types_stage_frame by exact Hfile.
  rewrite allocation_stage_frame by discriminate.
  rewrite eigen_stage_frame
    by ((intros file _; apply Hfile) || discriminate).
  rewrite macros_include_files by (intros file _; apply Hfile).
  apply lookup_insert_eq.
Qed.

(** Once the guard is defined an inclusion changes nothing. *)
Lemma include_tapkee_defines_guarded `{IncludedFiles} (t : Translation)
    (text : string) :
  macros t !! "TAPKEE_DEFINES_H_"%string = Some text ->
  include_tapkee_defines t = Some t.
Proof.
  intros Hguard. rewrite include_tapkee_defines_unfold, Hguard.
  reflexivity.
Qed.

(** Including again after a first inclusion changes nothing. *)
Lemma include_repeatedly_succ `{IncludedFiles} (n : nat) (t : Translation) :
  files_leave [ "TAPKEE_DEFINES_H_"%string ] ->
  include_repeatedly (S n) t = include_tapkee_defines t.
Proof.
  intros Hleave. revert t. induction n as [ | n IH]; intros t.
  - simpl. destruct (include_tapkee_defines t); reflexivity.
  - change (include_repeatedly (S (S n)) t)
      with (match include_tapkee_defines t with
            | Some t' => include_repeatedly (S n) t'
            | None => None
            end).
    destruct (include_tapkee_defines t) as [t' | ] eqn:Hfirst;
      [ | reflexivity].
    rewrite IH.
    rewrite include_tapkee_defines_unfold in Hfirst.
    injection Hfirst as <-.
    destruct (macros t !! "TAPKEE_DEFINES_H_"%string) as [text | ] eqn:Hguard.
    + apply (include_tapkee_defines_guarded t text Hguard).
    + apply (include_tapkee_defines_guarded (after_body t) ""%string).
      apply guard_defined_after_body, Hleave.
Qed.

(** X9.  The include guard works: where the included files leave the guard
    macro alone, including the header any number of times in a row, once at
    least, gives the translation that including it once gives, and that
    translation has the guard defined; nothing is defined, declared or
    included a second time. *)
Theorem include_tapkee_defines_once `{IncludedFiles} (n : nat)
    (t : Translation) :
  files_leave [ "TAPKEE_DEFINES_H_"%string ] ->
  exists t' : Translation,
    include_tapkee_defines t = Some t'
    /\ include_repeatedly (S n) t = Some t'
    /\ include_tapkee_defines t' = Some t'
    /\ macros t' !! "TAPKEE_DEFINES_H_"%string <> None.
Proof.
  intros Hleave. rewrite (include_repeatedly_succ n t Hleave).
  rewrite include_tapkee_defines_unfold.
  eexists. split; [reflexivity | ]. split; [reflexivity | ].
  destruct (macros t !! "TAPKEE_DEFINES_H_"%string) as [text | ] eqn:Hguard.
  - split; [apply (include_tapkee_defines_guarded t text Hguard) | ].
    rewrite Hguard. discriminate.
  - pose proof (guard_defined_after_body t Hleave) as Hdefined.
    split; [apply (include_tapkee_defines_guarded _ ""%string Hdefined) | ].
    rewrite Hdefined. discriminate.
Qed.

Lemma include_tapkee_defines_once_witness :
  exists t' : Translation,
    @include_tapkee_defines example_files (start ∅) = Some t'
    /\ @include_repeatedly example_files 3 (start ∅) = Some t'
    /\ @include_tapkee_defines example_files t' = Some t'
    /\ macros t' !! "TAPKEE_DEFINES_H_"%string <> None.
Proof.
  apply (@include_tapkee_defines_once example_files 2 (start ∅)).
  intros file name [<- | []]. apply example_files_leave. discriminate.
Defined.

(** *** The allocation macros *)

(** X10.  On a first inclusion the empty definitions of [RESTRICT_ALLOC]
    and [UNRESTRICT_ALLOC] are never chosen: whatever the command line
    defines, they end as the calls that forbid and allow allocation inside
    Eigen, provided the Eigen headers leave [EIGEN_RUNTIME_NO_MALLOC]
    defined and no included file touches the two macros. *)
Theorem allocation_macros_are_the_eigen_calls `{IncludedFiles}
    (t t' : Translation) :
  macros t !! "TAPKEE_DEFINES_H_"%string = None ->
  (forall file, In file eigen_headers ->
                leaves file "EIGEN_RUNTIME_NO_MALLOC") ->
  files_leave [ "RESTRICT_ALLOC"; "UNRESTRICT_ALLOC" ]%string ->
  include_tapkee_defines t = Some t' ->
  macros t' !! "RESTRICT_ALLOC"%string
  = Some "Eigen::internal::set_is_malloc_allowed(false);"%string
  /\ macros t' !! "UNRESTRICT_ALLOC"%string
     = Some "Eigen::internal::set_is_malloc_allowed(true);"%string.
Proof.
  intros Hguard Heigen Hleave Hinclude.
  rewrite include_tapkee_defines_unfold, Hguard in Hinclude.
  injection Hinclude as <-.
  assert (forall file, leaves file "RESTRICT_ALLOC") as Hrestrict
    by (intros file; apply Hleave; simpl; tauto).
  assert (forall file, leaves file "UNRESTRICT_ALLOC") as Hunrestrict
    by (intros file; apply Hleave; simpl; tauto).
  unfold after_body.
  rewrite !declarations_stage_frame
    by (apply Hrestrict || apply Hunrestrict || discriminate).
  rewrite !properties_stage_frame
    by (apply Hrestrict || apply Hunrestrict || discriminate).
  rewrite !types_stage_frame by (apply Hrestrict || apply Hunrestrict).
  unfold allocation_stage.
  assert (macros
            (eigen_stage
               (include_files leading_headers
                  (define_macro "TAPKEE_DEFINES_H_" "" t)))
          !! "EIGEN_RUNTIME_NO_MALLOC"%string = Some ""%string) as ->.
  { unfold eigen_stage. rewrite macros_include_files by exact Heigen.
    simpl. rewrite lookup_insert_ne by discriminate.
    apply lookup_insert_eq. }
  simpl. split.
  - rewrite lookup_insert_ne by discriminate. apply lookup_insert_eq.
  - apply lookup_insert_eq.
Qed.

Lemma allocation_macros_are_the_eigen_calls_witness :
  exists t' : Translation,
    @include_tapkee_defines example_files
      (start ∅) = Some t'
    /\ macros t' !! "RESTRICT_ALLOC"%string
       = Some "Eigen::internal::set_is_malloc_allowed(false);"%string
    /\ macros t' !! "UNRESTRICT_ALLOC"%string
       = Some "Eigen::internal::set_is_malloc_allowed(true);"%string.
Proof.
  eexists. split; [apply include_tapkee_defines_unfold | ].
  apply (@allocation_macros_are_the_eigen_calls example_files
           (start ∅)).
  - reflexivity.
  - intros file _. apply example_files_leave. discriminate.
  - intros file name [<- | [<- | []]];
      apply example_files_leave; discriminate.
  - apply include_tapkee_defines_unfold.
Defined.

(** *** The inclusions of the Eigen headers *)

(** The translation in which the Eigen headers are included. *)
Lemma eigen_stage_inclusions `{IncludedFiles} (names : list string)
    (t : Translation) :
  (forall file name, In file eigen_headers -> In name names ->
                     leaves file name) ->
  exists entries : list (string * gmap string string),
    inclusions (eigen_stage t) = inclusions t ++ entries
    /\ map fst entries = eigen_headers
    /\ Forall (fun entry => forall name, In name names ->
                 snd entry !! name
                 = <[ "EIGEN_DONT_PARALLELIZE"%string := ""%string ]>
                     (<[ "EIGEN_RUNTIME_NO_MALLOC"%string := ""%string ]>
                        (match macros t !! "TAPKEE_DEBUG"%string with
                         | Some _ => macros t
                         | None =>
                             <[ "EIGEN_NO_DEBUG"%string := ""%string ]>
                               (macros t)
                         end)) !! name) entries.
Proof.
  intros Hleave. unfold eigen_stage.
  match goal with
  | |- context [include_files eigen_headers ?configured] =>
      destruct (inclusions_include_files eigen_headers names configured
                  Hleave) as (entries & Hlog & Hfiles & Htables)
  end.
  exists entries. split; [ | split; [exact Hfiles | ] ].
  - rewrite Hlog. simpl.
    destruct (macros t !! "TAPKEE_DEBUG"%string); reflexivity.
  - eapply List.Forall_impl; [ | exact Htables].
    intros entry Hentry name Hname. rewrite (Hentry name Hname). simpl.
    destruct (macros t !! "TAPKEE_DEBUG"%string); reflexivity.
Qed.

(** The blocks after the Eigen headers only add inclusions. *)
Lemma later_stages_inclusions `{IncludedFiles} (t : Translation) :
  exists added : list (string * gmap string string),
    inclusions
      (declarations_stage
         (properties_stage (types_stage (allocation_stage t))))
    = inclusions t ++ added.
Proof.
  unfold declarations_stage, properties_stage, types_stage,
    allocation_stage.
  destruct (macros t !! "EIGEN_RUNTIME_NO_MALLOC"%string);
    match goal with
    | |- context [match ?table !! "TAPKEE_CUSTOM_TYPES"%string
                  with _ => _ end] =>
        destruct (table !! "TAPKEE_CUSTOM_TYPES"%string)
    end;
    match goal with
    | |- context [match ?table !! "TAPKEE_CUSTOM_PROPERTIES"%string
                  with _ => _ end] =>
        destruct (table !! "TAPKEE_CUSTOM_PROPERTIES"%string)
    end;
    simpl; rewrite <- ?app_assoc; eexists; reflexivity.
Qed.

(** The inclusions of a first inclusion of the header: those of the leading
    headers, then those of the Eigen headers, then the rest. *)
Lemma first_inclusion_log `{IncludedFiles} (names : list string)
    (t : Translation) :
  (forall file name, In file eigen_headers -> In name names ->
                     leaves file name) ->
  exists before entries after : list (string * gmap string string),
    inclusions (after_body t)
    = inclusions t ++ before ++ entries ++ after
    /\ map fst entries = eigen_headers
    /\ Forall (fun entry => forall name, In name names ->
                 snd entry !! name
                 = <[ "EIGEN_DONT_PARALLELIZE"%string := ""%string ]>
                     (<[ "EIGEN_RUNTIME_NO_MALLOC"%string := ""%string ]>
                        (match macros
                                 (include_files leading_headers
                                    (define_macro "TAPKEE_DEFINES_H_" "" t))
                               !! "TAPKEE_DEBUG"%string with
                         | Some _ =>
                             macros
                               (include_files leading_headers
                                  (define_macro "TAPKEE_DEFINES_H_" "" t))
                         | None =>
                             <[ "EIGEN_NO_DEBUG"%string := ""%string ]>
                               (macros
                                  (include_files leading_headers
                                     (define_macro "TAPKEE_DEFINES_H_" ""
                                        t)))
                         end)) !! name) entries.
Proof.
  intros Hleave. unfold after_body.
  set (t1 := include_files leading_headers
               (define_macro "TAPKEE_DEFINES_H_" "" t)).
  destruct (later_stages_inclusions (eigen_stage t1)) as (after & Hafter).
  destruct (eigen_stage_inclusions names t1 Hleave)
    as (entries & Hentries & Hfiles & Htables).
  destruct (inclusions_include_files leading_headers []
              (define_macro "TAPKEE_DEFINES_H_" "" t))
    as (before & Hbefore & _ & _); [intros file name _ [] | ].
  exists before, entries, after. split; [ | split; assumption].
  rewrite Hafter, Hentries. fold t1 in Hbefore. rewrite Hbefore. simpl.
  rewrite <- !app_assoc. reflexivity.
Qed.

(** X11.  On a first inclusion the three Eigen headers are included in the
    order Dense, Sparse, SparseCholesky, and each of them is read with
    [EIGEN_RUNTIME_NO_MALLOC] and [EIGEN_DONT_PARALLELIZE] defined, whatever
    the command line defines, provided the Eigen headers themselves leave
    the two macros alone. *)
Theorem eigen_headers_are_configured `{IncludedFiles} (t t' : Translation) :
  macros t !! "TAPKEE_DEFINES_H_"%string = None ->
  (forall file name,
     In file eigen_headers ->
     In name [ "EIGEN_RUNTIME_NO_MALLOC"; "EIGEN_DONT_PARALLELIZE" ]%string ->
     leaves file name) ->
  include_tapkee_defines t = Some t' ->
  exists before entries after : list (string * gmap string string),
    inclusions t' = inclusions t ++ before ++ entries ++ after
    /\ map fst entries = eigen_headers
    /\ Forall (fun entry =>
                 snd entry !! "EIGEN_RUNTIME_NO_MALLOC"%string
                 = Some ""%string
                 /\ snd entry !! "EIGEN_DONT_PARALLELIZE"%string
                    = Some ""%string) entries.
Proof.
  intros Hguard Hleave Hinclude.
  rewrite include_tapkee_defines_unfold, Hguard in Hinclude.
  injection Hinclude as <-.
  destruct (first_inclusion_log _ t Hleave)
    as (before & entries & after & Hlog & Hfiles & Htables).
  exists before, entries, after. split; [exact Hlog | ].
  split; [exact Hfiles | ].
  eapply List.Forall_impl; [ | exact Htables].
  intros entry Hentry. split.
  - rewrite (Hentry "EIGEN_RUNTIME_NO_MALLOC"%string) by (simpl; tauto).
    rewrite lookup_insert_ne by discriminate. apply lookup_insert_eq.
  - rewrite (Hentry "EIGEN_DONT_PARALLELIZE"%string) by (simpl; tauto).
    apply lookup_insert_eq.
Qed.

Lemma eigen_headers_are_configured_witness :
  exists (t' : Translation)
         (before entries after : list (string * gmap string string)),
    @include_tapkee_defines example_files (start ∅) = Some t'
    /\ inclusions t' = inclusions (start ∅) ++ before ++ entries ++ after
    /\ map fst entries = eigen_headers
    /\ Forall (fun entry =>
                 snd entry !! "EIGEN_RUNTIME_NO_MALLOC"%string
                 = Some ""%string
                 /\ snd entry !! "EIGEN_DONT_PARALLELIZE"%string
                    = Some ""%string) entries.
Proof.
  destruct (@include_tapkee_defines example_files (start ∅))
    as [t' | ] eqn:Hinclude;
    [ | rewrite include_tapkee_defines_unfold in Hinclude; discriminate ].
  exists t'.
  destruct (@eigen_headers_are_configured example_files (start ∅) t')
    as (before & entries & after & Hlog);
    [ reflexivity
    | intros file name _ [<- | [<- | []]];
      apply example_files_leave; discriminate
    | exact Hinclude
    | ].
  exists before, entries, after.
  split; [reflexivity | exact Hlog].
Defined.

(** X12.  The debug switch: where the leading headers leave [TAPKEE_DEBUG]
    and [EIGEN_NO_DEBUG] alone and the Eigen headers leave [EIGEN_NO_DEBUG]
    alone, a first inclusion without [TAPKEE_DEBUG] has every Eigen header
    read with [EIGEN_NO_DEBUG] defined, and one with [TAPKEE_DEBUG] has it
    read with [EIGEN_NO_DEBUG] as the command line left it. *)
Theorem tapkee_debug_switches_eigen_debug `{IncludedFiles}
    (t t' : Translation) :
  macros t !! "TAPKEE_DEFINES_H_"%string = None ->
  (forall file name,
     In file leading_headers ->
     In name [ "TAPKEE_DEBUG"; "EIGEN_NO_DEBUG" ]%string ->
     leaves file name) ->
  (forall file, In file eigen_headers -> leaves file "EIGEN_NO_DEBUG") ->
  include_tapkee_defines t = Some t' ->
  exists before entries after : list (string * gmap string string),
    inclusions t' = inclusions t ++ before ++ entries ++ after
    /\ map fst entries = eigen_headers
    /\ Forall (fun entry =>
                 snd entry !! "EIGEN_NO_DEBUG"%string
                 = match macros t !! "TAPKEE_DEBUG"%string with
                   | Some _ => macros t !! "EIGEN_NO_DEBUG"%string
                   | None => Some ""%string
                   end) entries.
Proof.
  intros Hguard Hleading Heigen Hinclude.
  rewrite include_tapkee_defines_unfold, Hguard in Hinclude.
  injection Hinclude as <-.
  destruct (first_inclusion_log [ "EIGEN_NO_DEBUG"%string ] t)
    as (before & entries & after & Hlog & Hfiles & Htables).
  { intros file name Hfile [<- | []]. apply Heigen, Hfile. }
  exists before, entries, after. split; [exact Hlog | ].
  split; [exact Hfiles | ].
  eapply List.Forall_impl; [ | exact Htables].
  intros entry Hentry.
  rewrite (Hentry "EIGEN_NO_DEBUG"%string) by (left; reflexivity).
  rewrite !lookup_insert_ne by discriminate.
  rewrite (macros_include_files leading_headers "TAPKEE_DEBUG")
    by (intros file Hfile; apply Hleading; simpl; tauto).
  rewrite macros_define_macro, lookup_insert_ne by discriminate.
  destruct (macros t !! "TAPKEE_DEBUG"%string).
  - rewrite (macros_include_files leading_headers "EIGEN_NO_DEBUG")
      by (intros file Hfile; apply Hleading; simpl; tauto).
    rewrite macros_define_macro. apply lookup_insert_ne. discriminate.
  - apply lookup_insert_eq.
Qed.

Lemma tapkee_debug_switches_eigen_debug_witness :
  exists (t' : Translation)
         (before entries after : list (string * gmap string string)),
    @include_tapkee_defines example_files
      (start {[ "TAPKEE_DEBUG"%string := ""%string ]}) = Some t'
    /\ inclusions t' = before ++ entries ++ after
    /\ map fst entries = eigen_headers
    /\ Forall (fun entry => snd entry !! "EIGEN_NO_DEBUG"%string = None)
         entries.
Proof.
  destruct (@include_tapkee_defines example_files
              (start {[ "TAPKEE_DEBUG"%string := ""%string ]}))
    as [t' | ] eqn:Hinclude;
    [ | rewrite include_tapkee_defines_unfold in Hinclude; discriminate ].
  exists t'.
  destruct (@tapkee_debug_switches_eigen_debug example_files
              (start {[ "TAPKEE_DEBUG"%string := ""%string ]}) t')
    as (before & entries & after & Hlog);
    [ reflexivity
    | intros file name _ [<- | [<- | []]];
      apply example_files_leave; discriminate
    | intros file _; apply example_files_leave; discriminate
    | exact Hinclude
    | ].
  exists before, entries, after.
  split; [reflexivity | exact Hlog].
Defined.

(** *** The internal macros *)

(** X13.  [INTERNAL_VECTOR] and [INTERNAL_PAIR] do not outlive the header:
    after a first inclusion neither is defined, not even when the command
    line had defined it, provided [callbacks/traits.hpp], which is included
    after they are undefined, defines neither. *)
Theorem internal_macros_do_not_leak `{IncludedFiles} (t t' : Translation) :
  macros t !! "TAPKEE_DEFINES_H_"%string = None ->
  leaves "callbacks/traits.hpp" "INTERNAL_VECTOR" ->
  leaves "callbacks/traits.hpp" "INTERNAL_PAIR" ->
  include_tapkee_defines t = Some t' ->
  macros t' !! "INTERNAL_VECTOR"%string = None
  /\ macros t' !! "INTERNAL_PAIR"%string = None.
Proof.
  intros Hguard Hvector Hpair Hinclude.
  rewrite include_tapkee_defines_unfold, Hguard in Hinclude.
  injection Hinclude as <-.
  unfold after_body, declarations_stage. simpl. split.
  - rewrite Hvector, lookup_delete_ne by discriminate.
    apply lookup_delete_eq.
  - rewrite Hpair. apply lookup_delete_eq.
Qed.

Lemma internal_macros_do_not_leak_witness :
  exists t' : Translation,
    @include_tapkee_defines example_files
      (start {[ "INTERNAL_VECTOR"%string := "std::vector"%string ]})
    = Some t'
    /\ macros t' !! "INTERNAL_VECTOR"%string = None
    /\ macros t' !! "INTERNAL_PAIR"%string = None.
Proof.
  eexists. split; [apply include_tapkee_defines_unfold | ].
  apply (@internal_macros_do_not_leak example_files
           (start {[ "INTERNAL_VECTOR"%string := "std::vector"%string ]})).
  - reflexivity.
  - apply example_files_leave. discriminate.
  - apply example_files_leave. discriminate.
  - apply include_tapkee_defines_unfold.
Defined.

(** *** The declarations *)

Lemma declarations_eigen_stage `{IncludedFiles} (t : Translation) :
  declarations (eigen_stage t) = declarations t.
Proof.
  unfold eigen_stage. rewrite declarations_include_files.
  destruct (macros t !! "TAPKEE_DEBUG"%string); reflexivity.
Qed.

Lemma declarations_allocation_stage (t : Translation) :
  declarations (allocation_stage t) = declarations t.
Proof.
  unfold allocation_stage.
  destruct (macros t !! "EIGEN_RUNTIME_NO_MALLOC"%string); reflexivity.
Qed.

(** The names the body declares, given the macros at the customizable
    types. *)
Lemma declarations_after_body `{IncludedFiles} (t : Translation) :
  declarations (after_body t)
  = declarations t
    ++ match macros
               (allocation_stage
                  (eigen_stage
                     (include_files leading_headers
                        (define_macro "TAPKEE_DEFINES_H_" "" t))))
             !! "TAPKEE_CUSTOM_TYPES"%string with
       | Some _ => []
       | None => default_typedefs
       end
    ++ parameter_and_method_types ++ internal_typedefs ++ projecting_types.
Proof.
  unfold after_body.
  set (t4 := allocation_stage
               (eigen_stage
                  (include_files leading_headers
                     (define_macro "TAPKEE_DEFINES_H_" "" t)))).
  assert (declarations t4 = declarations t) as Ht4.
  { unfold t4. rewrite declarations_allocation_stage,
      declarations_eigen_stage, declarations_include_files.
    reflexivity. }
  unfold declarations_stage, properties_stage, types_stage.
  destruct (macros t4 !! "TAPKEE_CUSTOM_TYPES"%string) as [file | ];
    match goal with
    | |- context [match ?table !! "TAPKEE_CUSTOM_PROPERTIES"%string
                  with _ => _ end] =>
        destruct (table !! "TAPKEE_CUSTOM_PROPERTIES"%string)
    end;
    simpl; rewrite Ht4, <- ?app_assoc; reflexivity.
Qed.

(** X14.  What a first inclusion declares: the seven default typedefs
    exactly when [TAPKEE_CUSTOM_TYPES] is not defined, then the parameter
    and method types, the internal typedefs and the projecting types, in
    this order and whatever else is configured; the headers included before
    the customizable types are supposed to leave [TAPKEE_CUSTOM_TYPES]
    alone. *)
Theorem declarations_of_a_first_inclusion `{IncludedFiles}
    (t t' : Translation) :
  macros t !! "TAPKEE_DEFINES_H_"%string = None ->
  (forall file, In file (leading_headers ++ eigen_headers) ->
                leaves file "TAPKEE_CUSTOM_TYPES") ->
  include_tapkee_defines t = Some t' ->
  declarations t'
  = declarations t
    ++ match macros t !! "TAPKEE_CUSTOM_TYPES"%string with
       | Some _ => []
       | None => default_typedefs
       end
    ++ parameter_and_method_types ++ internal_typedefs ++ projecting_types.
Proof.
  intros Hguard Hleave Hinclude.
  rewrite include_tapkee_defines_unfold, Hguard in Hinclude.
  injection Hinclude as <-.
  rewrite declarations_after_body.
  rewrite allocation_stage_frame by discriminate.
  rewrite eigen_stage_frame
    by (discriminate
        || (intros file Hfile; apply Hleave, in_or_app; right; exact Hfile)).
  rewrite macros_include_files
    by (intros file Hfile; apply Hleave, in_or_app; left; exact Hfile).
  rewrite macros_define_macro, lookup_insert_ne by discriminate.
  reflexivity.
Qed.

Lemma declarations_of_a_first_inclusion_witness :
  exists t' : Translation,
    @include_tapkee_defines example_files
      (start {[ "TAPKEE_CUSTOM_TYPES"%string := "<my_types.hpp>"%string ]})
    = Some t'
    /\ declarations t'
       = parameter_and_method_types ++ internal_typedefs
         ++ projecting_types.
Proof.
  eexists. split; [apply include_tapkee_defines_unfold | ].
  etransitivity.
  - apply (@declarations_of_a_first_inclusion example_files
             (start
                {[ "TAPKEE_CUSTOM_TYPES"%string
                   := "<my_types.hpp>"%string ]})).
    + reflexivity.
    + intros file _. apply example_files_leave. discriminate.
    + apply include_tapkee_defines_unfold.
  - reflexivity.
Defined.

(** X15.  However often the header is included in a translation unit that
    has declared nothing yet, no name is declared twice, where the included
    files leave the guard macro alone. *)
Theorem no_name_is_declared_twice `{IncludedFiles} (n : nat)
    (t t' : Translation) :
  declarations t = [] ->
  files_leave [ "TAPKEE_DEFINES_H_"%string ] ->
  include_repeatedly n t = Some t' ->
  NoDup (declarations t').
Proof.
  intros Hnone Hleave Hrepeat.
  destruct n as [ | n].
  - injection Hrepeat as <-. rewrite Hnone. constructor.
  - rewrite (include_repeatedly_succ n t Hleave) in Hrepeat.
    rewrite include_tapkee_defines_unfold in Hrepeat.
    injection Hrepeat as <-.
    destruct (macros t !! "TAPKEE_DEFINES_H_"%string);
      [rewrite Hnone; constructor | ].
    rewrite declarations_after_body, Hnone.
    match goal with
    | |- context [match ?table !! "TAPKEE_CUSTOM_TYPES"%string
                  with _ => _ end] =>
        destruct (table !! "TAPKEE_CUSTOM_TYPES"%string)
    end;
      apply (bool_decide_unpack _); vm_compute; exact I.
Qed.

Lemma no_name_is_declared_twice_witness :
  exists t' : Translation,
    @include_repeatedly example_files 2 (start ∅) = Some t'
    /\ NoDup (declarations t').
Proof.
  destruct (@include_repeatedly example_files 2 (start ∅))
    as [t' | ] eqn:Hrepeat.
  - exists t'. split; [reflexivity | ].
    apply (@no_name_is_declared_twice example_files 2 (start ∅) t').
    + reflexivity.
    + intros file name [<- | []]. apply example_files_leave. discriminate.
    + exact Hrepeat.
  - exfalso. simpl in Hrepeat.
    rewrite include_tapkee_defines_unfold in Hrepeat.
    rewrite include_tapkee_defines_unfold in Hrepeat.
    discriminate Hrepeat.
Defined.

(** *** The cover-tree base, directive by directive *)

(** X16.  On a first inclusion, where no included file touches
    [TAPKEE_CUSTOM_PROPERTIES] and [callbacks/traits.hpp] leaves
    [COVERTREE_BASE] alone: without [TAPKEE_CUSTOM_PROPERTIES] the macro
    [COVERTREE_BASE] ends with the text [1.3]; with it, the file it names
    is included and [COVERTREE_BASE] ends as that file leaves it, the
    header's own [1.3] playing no part. *)
Theorem covertree_base_after_inclusion `{IncludedFiles}
    (t t' : Translation) :
  macros t !! "TAPKEE_DEFINES_H_"%string = None ->
  (forall file, leaves file "TAPKEE_CUSTOM_PROPERTIES") ->
  leaves "callbacks/traits.hpp" "COVERTREE_BASE" ->
  include_tapkee_defines t = Some t' ->
  match macros t !! "TAPKEE_CUSTOM_PROPERTIES"%string with
  | None => macros t' !! "COVERTREE_BASE"%string = Some "1.3"%string
  | Some file =>
      exists table : gmap string string,
        In (file, table) (inclusions t')
        /\ macros t' !! "COVERTREE_BASE"%string
           = file_effect file table !! "COVERTREE_BASE"%string
  end.
Proof.
  intros Hguard Hleave Htraits Hinclude.
  rewrite include_tapkee_defines_unfold, Hguard in Hinclude.
  injection Hinclude as <-.
  unfold after_body.
  set (t5 := types_stage
               (allocation_stage
                  (eigen_stage
                     (include_files leading_headers
                        (define_macro "TAPKEE_DEFINES_H_" "" t))))).
  assert (macros t5 !! "TAPKEE_CUSTOM_PROPERTIES"%string
          = macros t !! "TAPKEE_CUSTOM_PROPERTIES"%string) as Hsame.
  { unfold t5. rewrite types_stage_frame by exact Hleave.
    rewrite allocation_stage_frame by discriminate.
    rewrite eigen_stage_frame
      by (discriminate || (intros file _; apply Hleave)).
    rewrite macros_include_files by (intros file _; apply Hleave).
    rewrite macros_define_macro. apply lookup_insert_ne. discriminate. }
  rewrite <- Hsame. unfold properties_stage.
  destruct (macros t5 !! "TAPKEE_CUSTOM_PROPERTIES"%string) as [file | ].
  - exists (macros t5). split.
    + unfold declarations_stage. simpl.
      apply in_or_app. left. apply in_or_app. right. left. reflexivity.
    + rewrite declarations_stage_frame by (exact Htraits || discriminate).
      reflexivity.
  - rewrite declarations_stage_frame by (exact Htraits || discriminate).
    rewrite macros_define_macro. apply lookup_insert_eq.
Qed.

Lemma covertree_base_after_inclusion_witness :
  exists t' : Translation,
    @include_tapkee_defines example_files
      (start
         {[ "TAPKEE_CUSTOM_PROPERTIES"%string
            := "<my_properties.hpp>"%string ]}) = Some t'
    /\ macros t' !! "COVERTREE_BASE"%string = Some "2.0"%string.
Proof.
  eexists. split; [apply include_tapkee_defines_unfold | ].
  assert (forall file, @leaves example_files file "TAPKEE_CUSTOM_PROPERTIES")
    as Hleave by (intros file; apply example_files_leave; discriminate).
  assert (@leaves example_files "callbacks/traits.hpp" "COVERTREE_BASE")
    as Htraits.
  { intros table. reflexivity. }
  pose proof
    (@covertree_base_after_inclusion example_files
       (start
          {[ "TAPKEE_CUSTOM_PROPERTIES"%string
             := "<my_properties.hpp>"%string ]}) _
       eq_refl Hleave Htraits (include_tapkee_defines_unfold _)) as Hbase.
  assert (macros
            (start
               {[ "TAPKEE_CUSTOM_PROPERTIES"%string
                  := "<my_properties.hpp>"%string ]})
          !! "TAPKEE_CUSTOM_PROPERTIES"%string
          = Some "<my_properties.hpp>"%string) as Hcommand by reflexivity.
  rewrite Hcommand in Hbase.
  destruct Hbase as (table & _ & Hbase).
  etransitivity; [exact Hbase | ].
  apply (lookup_insert_eq table "COVERTREE_BASE"%string "2.0"%string).
Defined.
